(** * MolecularSimilarity: the model factory and the two data scripts

    A shallow embedding of [model_factory.py], [add_activity.py] and the
    record loop of [compute_descriptors.py], with the properties their
    specification states about them.

    Python statements that mutate process state or raise are written in a
    state-and-exception monad [M]: a computation takes the state, and gives
    back either a value or the exception that propagated, together with the
    state as the statements executed before the exception left it. *)

From Stdlib Require Import ZArith Ascii String List Lia.
From stdpp Require Import gmap strings pretty list fin_maps.

Local Open Scope string_scope.
Set Warnings "-register-all,-clear-no-such-hyp".

(** ** Python values, exceptions and control flow *)

Module Py.

(** The exceptions these programs can see. [Raised] stands for whatever a
    callable that is opaque to the program (a model constructor) raises. *)
Inductive exception : Type :=
| KeyError (key : string)
| IndexError
| TypeError
| ValueError
| ArgumentError
| Raised (what : string).

Inductive result (A : Type) : Type :=
| Return (a : A)
| Raise (e : exception).
Arguments Return {A} a.
Arguments Raise {A} e.

Definition M (S A : Type) : Type := S -> result A * S.

Definition ret {S A} (a : A) : M S A := fun s => (Return a, s).

Definition raise {S A} (e : exception) : M S A := fun s => (Raise e, s).

Definition bind {S A B} (m : M S A) (k : A -> M S B) : M S B :=
  fun s =>
    match m s with
    | (Return a, s') => k a s'
    | (Raise e, s') => (Raise e, s')
    end.

(** An expression that touches no state but may raise. *)
Definition lift {S A} (r : result A) : M S A := fun s => (r, s).

Definition gets {S A} (f : S -> A) : M S A := fun s => (Return (f s), s).

Definition modify {S} (f : S -> S) : M S unit := fun s => (Return tt, f s).

(** What executing the body of a [for] loop once leads to: the next
    iteration, or a [return] out of the enclosing function. *)
Inductive flow (A : Type) : Type :=
| Next
| Returned (a : A).
Arguments Next {A}.
Arguments Returned {A} a.

End Py.

Import Py.

Declare Scope py_scope.
Delimit Scope py_scope with py.
Notation "x <- c1 ;; c2" := (bind c1 (fun x => c2))
  (at level 100, c1 at next level, right associativity) : py_scope.
Notation "c1 ;; c2" := (bind c1 (fun _ => c2))
  (at level 100, right associativity) : py_scope.
Local Open Scope py_scope.

(** [for x in xs: body], where the body may [return]. *)
Fixpoint for_in {S X A} (xs : list X) (body : X -> M S (flow A)) : M S (flow A) :=
  match xs with
  | [] => ret Next
  | x :: rest =>
      f <- body x ;;
      match f with
      | Next => for_in rest body
      | Returned a => ret (Returned a)
      end
  end.

(** [keeps I m]: running [m] in a state where [I] holds leaves a state
    where it holds, whether [m] returns or raises. *)
Definition keeps {S A} (I : S -> Prop) (m : M S A) : Prop :=
  forall s, I s -> I (snd (m s)).

(** The line feed that the scripts write between records. *)
Definition newline : string := String (ascii_of_nat 10) EmptyString.

(** ** model_factory.py *)

Module ModelFactory.

(** What an observer of the process sees the factory do: enter
    [_discover_models], and call the constructor stored under a name.  The
    events are kept in the [log] of the process, which no operation reads;
    it is there for the properties that count calls. *)
Inductive event : Type :=
| Discover
| Construct (name : string).

#[global] Instance event_eq_dec : EqDecision event.
Proof. solve_decision. Defined.

(** The modules that [_discover_models] imports, in the order of its
    import statements. *)
Definition discovery_imports : list string :=
  [ "model.active_index_model"; "model.descriptors_model";
    "model.rdkit_ecfp_model"; "model.rdkit_fcfp_model";
    "model.rdkit_tt_model"; "model.rdkit_ap_model";
    "model.control_model"; "model.active_inactive_index_model";
    "model.linear_regression_model"; "model.decision_tree_model";
    "model.nbit_ecfp_model"; "model.nbit_fcfp_model";
    "model.nbit_ap_model"; "model.nbit_ecfp_model2";
    "model.nbit_fcfp_model2"; "model.nbit_tt_model";
    "model.equivalent_class_model"; "model.baseline_model";
    "model.ecfp_pair_model" ].

Section Registry.

(** [World] is the state of the process outside the registry, the part
    a constructor can read and change; [Model] is the type of model
    instances, opaque to the factory. *)
Context {World Model : Type}.

(** A registered constructor: a callable of no arguments. *)
Definition constructor : Type := World -> result Model * World.

Record process : Type := Process {
  _required_models : gmap string constructor;
  sys_modules : gset string;
  world : World;
  log : list event
}.

Definition set_required_models (f : gmap string constructor -> gmap string constructor)
    (p : process) : process :=
  Process (f (_required_models p)) (sys_modules p) (world p) (log p).

Definition set_sys_modules (f : gset string -> gset string) (p : process) : process :=
  Process (_required_models p) (f (sys_modules p)) (world p) (log p).

Definition set_world (w : World) (p : process) : process :=
  Process (_required_models p) (sys_modules p) w (log p).

Definition emit (e : event) : M process unit :=
  modify (fun p => Process (_required_models p) (sys_modules p) (world p) (log p ++ [e])).

(** The process at start: nothing registered, no model module loaded. *)
Definition start (w : World) : process := Process ∅ ∅ w [].

(** [_required_models[name] = constructor] *)
Definition register_model (name : string) (c : constructor) : M process unit :=
  modify (set_required_models (insert name c)).

(** The model modules are not part of the sources at hand.
    [model_identifier] is the name a module registers itself under and
    [model_constructor] the constructor it registers. *)
Variable model_identifier : string -> string.
Variable model_constructor : string -> constructor.

(** Modelled from the spec: the body of a model module, missing from the
    sources.  At load time each model implementation calls [register]
    with its own identifier and constructor. *)
Definition module_body (module : string) : M process unit :=
  register_model (model_identifier module) (model_constructor module).

(** [import module]: a module that is already in [sys.modules] is not
    executed again; otherwise it is entered there and its body runs. *)
Definition import (module : string) : M process unit :=
  loaded <- gets (fun p => bool_decide (module ∈ sys_modules p)) ;;
  if (loaded : bool) then ret tt
  else modify (set_sys_modules (union {[module]})) ;; module_body module.

Fixpoint imports (modules : list string) : M process unit :=
  match modules with
  | [] => ret tt
  | m :: rest => import m ;; imports rest
  end.

Definition _discover_models : M process unit :=
  emit Discover ;; imports discovery_imports.

(** [_required_models == {}] *)
Definition is_empty_dict (d : gmap string constructor) : bool :=
  bool_decide (dom d = ∅).

(** Calling the constructor found under [name]. *)
Definition call (name : string) (c : constructor) : M process Model :=
  emit (Construct name) ;;
  fun p => let (r, w) := c (world p) in (r, set_world w p).

Definition create_model (name : string) : M process Model :=
  empty <- gets (fun p => is_empty_dict (_required_models p)) ;;
  (if (empty : bool) then _discover_models else ret tt) ;;
  found <- gets (fun p => _required_models p !! name) ;;
  match found with
  | None => raise (KeyError name)
  | Some c => call name c
  end.

(** The public operations, and a client as the sequence of operations
    it performs.  A client goes on after an exception. *)
Inductive operation : Type :=
| Register (name : string) (c : constructor)
| Create (name : string).

Definition exec (o : operation) (p : process) : process :=
  match o with
  | Register name c => snd (register_model name c p)
  | Create name => snd (create_model name p)
  end.

Definition run (ops : list operation) (p : process) : process :=
  fold_left (fun q o => exec o q) ops p.

Definition discoveries (p : process) : nat :=
  length (filter (fun e => e = Discover) (log p)).

Definition constructions (name : string) (p : process) : nat :=
  length (filter (fun e => e = Construct name) (log p)).

Definition names (p : process) : gset string := dom (_required_models p).

(** The process after [_discover_models] has run in it. *)
Definition discovered (p : process) : process := snd (_discover_models p).

(** The name an operation stores a constructor under, if it stores one. *)
Definition registers (o : operation) : option string :=
  match o with
  | Register name _ => Some name
  | Create _ => None
  end.

(** What holds of every process a client can reach from the start: at most
    one discovery, and none as long as the registry is empty, when no
    model module is loaded either. *)
Definition fresh_or_populated (p : process) : Prop :=
  discoveries p <= 1 /\
  (_required_models p = ∅ -> sys_modules p = ∅ /\ discoveries p = 0).

(** What holds once [create_model] has been called: the registry has an
    entry, or every module of the discovery list is loaded. *)
Definition settled (p : process) : Prop :=
  _required_models p ≠ ∅ \/ list_to_set discovery_imports ⊆ sys_modules p.

End Registry.

Arguments constructor : clear implicits.
Arguments process : clear implicits.
Arguments operation : clear implicits.

(** Modelled from the spec: the identifier each model module registers
    itself under, missing from the sources.  The table is the registration
    table of the specification's section on external interfaces, entry by
    entry, in the order of the import list. *)
Definition registration_table : list (string * string) :=
  [ ("model.active_index_model", "active_index");
    ("model.descriptors_model", "descriptors");
    ("model.rdkit_ecfp_model", "rdkit_ecfp");
    ("model.rdkit_fcfp_model", "rdkt_fcfp");
    ("model.rdkit_tt_model", "rdkit_tt");
    ("model.rdkit_ap_model", "rdkit_ap");
    ("model.control_model", "control");
    ("model.active_inactive_index_model", "active_inactive_index");
    ("model.linear_regression_model", "linear_regression");
    ("model.decision_tree_model", "decision_tree");
    ("model.nbit_ecfp_model", "nbit_ecfp");
    ("model.nbit_fcfp_model", "nbit_fcfp");
    ("model.nbit_ap_model", "nbit_ap");
    ("model.nbit_ecfp_model2", "nbit_ecfp2");
    ("model.nbit_fcfp_model2", "nbit_fcfp2");
    ("model.nbit_tt_model", "nbit_tt");
    ("model.equivalent_class_model", "equivalent_class");
    ("model.baseline_model", "baseline");
    ("model.ecfp_pair_model", "ecfp_pair") ].

Definition table_identifier (module : string) : string :=
  match find (fun entry => String.eqb (fst entry) module) registration_table with
  | Some entry => snd entry
  | None => module
  end.

(** A client's world for the examples: the number of model instances built
    so far.  [fresh_instance] is a class used as a constructor: each call
    builds the next instance; [failing_constructor] raises. *)
Definition fresh_instance : constructor nat nat := fun w => (Return w, S w).

Definition failing_constructor : constructor nat nat :=
  fun w => (Raise (Raised "constructor failed"), w).

End ModelFactory.

(** ** JSON values, as [json.loads] builds them *)

Module Json.

(** [JNull] is Python's [None]; a [JFloat] carries the bits of the double;
    a [JObj] lists the items of a [dict] in insertion order. *)
Inductive json : Type :=
| JNull
| JBool (b : bool)
| JInt (z : Z)
| JFloat (bits : Z)
| JStr (s : string)
| JArr (items : list json)
| JObj (items : list (string * json)).

Fixpoint dict_get (key : string) (items : list (string * json)) : option json :=
  match items with
  | [] => None
  | (k, v) :: rest => if String.eqb k key then Some v else dict_get key rest
  end.

(** [v[key]] for a string key: a [dict] gives the value or [KeyError];
    a list or a string wants integer indices, and the other values are
    not subscriptable. *)
Definition getitem (v : json) (key : string) : result json :=
  match v with
  | JObj items =>
      match dict_get key items with
      | Some x => Return x
      | None => Raise (KeyError key)
      end
  | _ => Raise TypeError
  end.

(** [l[num]] for a list and an index that is not negative. *)
Definition list_getitem (l : list json) (num : nat) : result json :=
  match l !! num with
  | Some x => Return x
  | None => Raise IndexError
  end.

(** A [JStr] holds the text in UTF-8, as the files of the scripts hold it.
    A character of a Python [str] is a code point: in UTF-8 a byte that is
    not a continuation byte (a byte from 128 to 191), with the continuation
    bytes that follow it.  [code_points s] gives the continuation bytes at
    the head of [s], which belong to a character that began before [s], and
    the code points after them. *)
Definition continuation (a : ascii) : bool :=
  Nat.leb 128 (nat_of_ascii a) && Nat.ltb (nat_of_ascii a) 192.

Fixpoint code_points (s : string) : string * list string :=
  match s with
  | EmptyString => (EmptyString, [])
  | String a rest =>
      let (tail, points) := code_points rest in
      if continuation a then (String a tail, points)
      else (EmptyString, String a tail :: points)
  end.

(** The characters of a string, each a string of length one. *)
Definition characters (s : string) : list json :=
  let (stray, points) := code_points s in
  map JStr (match stray with
            | EmptyString => points
            | _ => stray :: points
            end).

(** [for x in v]: the elements of a list, the keys of a [dict], the
    characters of a string; the other values are not iterable. *)
Definition iterate (v : json) : result (list json) :=
  match v with
  | JArr items => Return items
  | JObj items => Return (map (fun kv => JStr (fst kv)) items)
  | JStr s => Return (characters s)
  | _ => Raise TypeError
  end.

(** [stream.write(v)] accepts a [str] only. *)
Definition as_str (v : json) : result string :=
  match v with
  | JStr s => Return s
  | _ => Raise TypeError
  end.

(** [v[num]] for an index that is not negative and any value: a list or
    a string gives its element or [IndexError]; a [dict], whose keys are
    strings, has no such key, and the error names the key as Python prints
    it; the other values are not subscriptable. *)
Definition subscript (v : json) (num : nat) : result json :=
  match v with
  | JArr items => list_getitem items num
  | JStr s => list_getitem (characters s) num
  | JObj _ => Raise (KeyError (pretty num))
  | _ => Raise TypeError
  end.

End Json.

Import Json.

(** [enumerate(xs)] *)
Fixpoint enumerate_from {X} (start : nat) (xs : list X) : list (nat * X) :=
  match xs with
  | [] => []
  | x :: rest => (start, x) :: enumerate_from (S start) rest
  end.

Definition enumerate {X} (xs : list X) : list (nat * X) := enumerate_from 0 xs.

(** [sep.join(parts)] *)
Fixpoint join (sep : string) (parts : list string) : string :=
  match parts with
  | [] => ""
  | [x] => x
  | x :: rest => x ++ sep ++ join sep rest
  end.

(** ** add_activity.py

    A text file opened for reading is the list of its lines, as iterating
    over the stream yields them; a file opened for writing is the text
    written to it so far. *)

Module AddActivity.

Section AddActivityScript.

(** The [json] module of the standard library. *)
Variable json_loads : string -> result json.
Variable json_dumps : json -> string.

(** A function that falls off its end returns [None]. *)
Definition read_activity (input_activity : list string) : M unit json :=
  f <- for_in input_activity (fun line =>
         activity <- lift (json_loads line) ;;
         a <- lift (getitem activity "activity") ;;
         ret (Returned a)) ;;
  match f with
  | Returned a => ret a
  | Next => ret JNull
  end.

Definition output_stream_write (text : string) : M string unit :=
  modify (fun written => written ++ text).

(** The record built from line [num] of the score file. *)
Definition output_record (name score activity : json) : json :=
  JObj [("name", name); ("score", score); ("activity", activity)].

(** The state is the text of the output file.  Creating its parent
    directory writes nothing; opening it with mode "w" empties it. *)
Definition write_to_json (input_score : list string) (activity : list json)
    : M string unit :=
  modify (fun _ => "") ;;
  for_in (A := unit) (enumerate input_score) (fun entry =>
    let num := fst entry in
    let line := snd entry in
    score <- lift (json_loads line) ;;
    name <- lift (getitem score "name") ;;
    value <- lift (getitem score "score") ;;
    label <- lift (list_getitem activity num) ;;
    let output := output_record name value label in
    (if negb (Nat.eqb num 0) then output_stream_write newline else ret tt) ;;
    output_stream_write (json_dumps output) ;;
    ret Next) ;;
  ret tt.

(** The records a finished or interrupted run has written, read back from
    the inputs: record [i] is built from line [i] and [activity[i]], and
    the first line that raises ends the list. *)
Fixpoint records_from (num : nat) (lines : list string) (activity : list json)
    : list json :=
  match lines with
  | [] => []
  | line :: rest =>
      match json_loads line with
      | Return score =>
          match getitem score "name", getitem score "score", list_getitem activity num with
          | Return name, Return value, Return label =>
              JObj [("name", name); ("score", value); ("activity", label)]
                :: records_from (S num) rest activity
          | _, _, _ => []
          end
      | Raise _ => []
      end
  end.

(** The text of the records from number [num] on, each after the first of
    the file on a line of its own. *)
Fixpoint text_from (num : nat) (records : list json) : string :=
  match records with
  | [] => ""
  | r :: rest =>
      (if negb (Nat.eqb num 0) then newline else "") ++ json_dumps r
        ++ text_from (S num) rest
  end.

(** The record of line [num] of the score file, or the exception that
    building it raises: the expressions of the loop body, in the order in
    which it evaluates them. *)
Definition line_record (num : nat) (line : string) (activity : list json) : result json :=
  match json_loads line with
  | Raise e => Raise e
  | Return score =>
      match getitem score "name" with
      | Raise e => Raise e
      | Return name =>
          match getitem score "score" with
          | Raise e => Raise e
          | Return value =>
              match list_getitem activity num with
              | Raise e => Raise e
              | Return label =>
                  Return (JObj [("name", name); ("score", value); ("activity", label)])
              end
          end
      end
  end.

(** How the loop over the lines from number [num] on ends: with the
    exception of the first line whose record cannot be built, if there is
    one. *)
Fixpoint outcome_from (num : nat) (lines : list string) (activity : list json)
    : result unit :=
  match lines with
  | [] => Return tt
  | line :: rest =>
      match line_record num line activity with
      | Return _ => outcome_from (S num) rest activity
      | Raise e => Raise e
      end
  end.

(** A line of the score file that parses to an object with a "name" and a
    "score". *)
Definition well_formed (line : string) : Prop :=
  exists score name value,
    json_loads line = Return score /\
    getitem score "name" = Return name /\
    getitem score "score" = Return value.

(** [write_to_json] when [activity] is whatever [read_activity] returned:
    the same body, with [activity[num]] on any value. *)
Definition write_to_json_any (input_score : list string) (activity : json)
    : M string unit :=
  modify (fun _ => "") ;;
  for_in (A := unit) (enumerate input_score) (fun entry =>
    let num := fst entry in
    let line := snd entry in
    score <- lift (json_loads line) ;;
    name <- lift (getitem score "name") ;;
    value <- lift (getitem score "score") ;;
    label <- lift (subscript activity num) ;;
    let output := output_record name value label in
    (if negb (Nat.eqb num 0) then output_stream_write newline else ret tt) ;;
    output_stream_write (json_dumps output) ;;
    ret Next) ;;
  ret tt.

(** [_main], given the lines of the activity file and of the score file;
    the state is the text of the output file. *)
Definition _main (activity_file score_file : list string) : M string unit :=
  fun written =>
    match read_activity activity_file tt with
    | (Raise e, _) => (Raise e, written)
    | (Return activity, _) => write_to_json_any score_file activity written
    end.

End AddActivityScript.

(** Stand-ins for [json.loads] and [json.dump] in the examples.  The line
    [labels] is read as an activity file line with the list [1, 0]; an
    empty line does not parse; any other line is read as the score line
    of the molecule it names, with score 1.  A record is written as the
    name followed by the activity. *)
Definition example_loads (line : string) : result json :=
  if String.eqb line "" then Raise ValueError
  else if String.eqb line "labels"
       then Return (JObj [("activity", JArr [JInt 1; JInt 0])])
       else Return (JObj [("name", JStr line); ("score", JInt 1)]).

Definition example_dumps (v : json) : string :=
  match v with
  | JObj [("name", JStr name); _; ("activity", JInt z)] =>
      name ++ (if Z.eqb z 0 then " inactive" else " active")
  | _ => "?"
  end.

End AddActivity.

(** ** compute_descriptors.py *)

Module ComputeDescriptors.

(** What the script hands to [logging]. *)
Inductive record : Type :=
| InvalidMolecule (smiles : string)
| InvalidMolecules (number_of_invalid count_molecules : nat).

(** [streams] holds the text written to each output file opened so far,
    the file being written first. *)
Record state : Type := State {
  streams : list string;
  logging : list record;
  number_of_invalid : nat;
  count_molecules : nat
}.

Definition initial : state := State [] [] 0 0.

(** [open(output_files[num], "w")] *)
Definition open_output : M state unit :=
  modify (fun s => State ("" :: streams s) (logging s) (number_of_invalid s) (count_molecules s)).

(** [stream.write(text)] *)
Definition stream_write (text : string) : M state unit :=
  modify (fun s =>
    match streams s with
    | [] => s
    | current :: closed =>
        State ((current ++ text) :: closed) (logging s) (number_of_invalid s) (count_molecules s)
    end).

Definition log_record (r : record) : M state unit :=
  modify (fun s => State (streams s) (logging s ++ [r]) (number_of_invalid s) (count_molecules s)).

Definition count_molecule : M state unit :=
  modify (fun s => State (streams s) (logging s) (number_of_invalid s) (S (count_molecules s))).

Definition count_invalid : M state unit :=
  modify (fun s => State (streams s) (logging s) (S (number_of_invalid s)) (count_molecules s)).

Definition quote : string := String (ascii_of_nat 34) EmptyString.

(** [l.index(name)] *)
Fixpoint index (name : string) (l : list string) : result nat :=
  match l with
  | [] => Raise ValueError
  | x :: rest =>
      if String.eqb x name then Return 0
      else match index name rest with
           | Return i => Return (S i)
           | Raise e => Raise e
           end
  end.

(** A list comprehension whose element expression may raise. *)
Fixpoint comprehension {X Y} (f : X -> result Y) (xs : list X) : result (list Y) :=
  match xs with
  | [] => Return []
  | x :: rest =>
      match f x with
      | Raise e => Raise e
      | Return y =>
          match comprehension f rest with
          | Return ys => Return (y :: ys)
          | Raise e => Raise e
          end
      end
  end.

Definition and_then {A B} (r : result A) (k : A -> result B) : result B :=
  match r with
  | Return a => k a
  | Raise e => Raise e
  end.

(** The text that writing the parts one after the other gives. *)
Definition text_of (parts : list string) : string :=
  fold_right String.append "" parts.

(** [s.split(sep)] for a separator of one character. *)
Fixpoint split (sep : ascii) (s : string) : list string :=
  match s with
  | EmptyString => [""]
  | String c rest =>
      if Ascii.eqb c sep then "" :: split sep rest
      else match split sep rest with
           | [] => [String c ""]
           | part :: parts => String c part :: parts
           end
  end.

Definition comma : ascii := ascii_of_nat 44.

(** [s.count(c)] for a character. *)
Fixpoint occurrences (c : ascii) (s : string) : nat :=
  match s with
  | EmptyString => 0
  | String x rest => (if Ascii.eqb x c then 1 else 0) + occurrences c rest
  end.

(** What [parse_args] gives: the values of [-i], [-o] and [--fragments]. *)
Record namespace : Type := Namespace {
  input : string;
  output : string;
  fragments : bool
}.

(** The configuration [_read_configuration] returns. *)
Record configuration : Type := Configuration {
  input_files : list string;
  output_files : list string;
  use_fragments : bool
}.

(** How a function of the script ends: it returns, or [exit] ends the
    process with a status. *)
Inductive ending (A : Type) : Type :=
| Returns (a : A)
| Exits (status : nat).
Arguments Returns {A} a.
Arguments Exits {A} status.

(** [_read_configuration] after [parse_args]: the messages it hands to
    [logging.info], and how it ends. *)
Definition _read_configuration (args : namespace) : list string * ending configuration :=
  let inputs := split comma (input args) in
  if negb (Nat.eqb (length inputs) 3) then
    (["Wrong number of input files"], Exits 1)
  else
    let outputs := split comma (output args) in
    if negb (Nat.eqb (length outputs) 3) then
      (["Wrong number of output files"], Exits 1)
    else ([], Returns (Configuration inputs outputs (fragments args))).

(** [_NAMES]: the names of the descriptors, in the order of the script. *)
Definition _NAMES : list string :=
  [ "MolWt"; "HeavyAtomMolWt"; "ExactMolWt"; "NumValenceElectrons";
    "NumRadicalElectrons"; "MaxEStateIndex"; "MinEStateIndex";
    "MaxAbsEStateIndex"; "MinAbsEStateIndex"; "BalabanJ"; "BertzCT"; "Chi0";
    "Chi0n"; "Chi0v"; "Chi1"; "Chi1n"; "Chi1v"; "Chi2n"; "Chi2v"; "Chi3n";
    "Chi3v"; "Chi4n"; "Chi4v"; "EState_VSA1"; "EState_VSA10"; "EState_VSA11";
    "EState_VSA2"; "EState_VSA3"; "EState_VSA4"; "EState_VSA5";
    "EState_VSA6"; "EState_VSA7"; "EState_VSA8"; "EState_VSA9";
    "FractionCSP3"; "HallKierAlpha"; "HeavyAtomCount"; "Ipc"; "Kappa1";
    "Kappa2"; "Kappa3"; "LabuteASA"; "MolLogP"; "MolMR"; "NHOHCount";
    "NOCount"; "NumAliphaticCarbocycles"; "NumAliphaticHeterocycles";
    "NumAliphaticRings"; "NumAromaticCarbocycles"; "NumAromaticHeterocycles";
    "NumAromaticRings"; "NumHAcceptors"; "NumHDonors"; "NumHeteroatoms";
    "NumRotatableBonds"; "NumSaturatedCarbocycles";
    "NumSaturatedHeterocycles"; "NumSaturatedRings"; "PEOE_VSA1";
    "PEOE_VSA10"; "PEOE_VSA11"; "PEOE_VSA12"; "PEOE_VSA13"; "PEOE_VSA14";
    "PEOE_VSA2"; "PEOE_VSA3"; "PEOE_VSA4"; "PEOE_VSA5"; "PEOE_VSA6";
    "PEOE_VSA7"; "PEOE_VSA8"; "PEOE_VSA9"; "RingCount"; "SMR_VSA1";
    "SMR_VSA10"; "SMR_VSA2"; "SMR_VSA3"; "SMR_VSA4"; "SMR_VSA5"; "SMR_VSA6";
    "SMR_VSA7"; "SMR_VSA8"; "SMR_VSA9"; "SlogP_VSA1"; "SlogP_VSA10";
    "SlogP_VSA11"; "SlogP_VSA12"; "SlogP_VSA2"; "SlogP_VSA3"; "SlogP_VSA4";
    "SlogP_VSA5"; "SlogP_VSA6"; "SlogP_VSA7"; "SlogP_VSA8"; "SlogP_VSA9";
    "TPSA"; "VSA_EState1"; "VSA_EState10"; "VSA_EState2"; "VSA_EState3";
    "VSA_EState4"; "VSA_EState5"; "VSA_EState6"; "VSA_EState7";
    "VSA_EState8"; "VSA_EState9"; "fr_Al_COO"; "fr_Al_OH"; "fr_Al_OH_noTert";
    "fr_ArN"; "fr_Ar_COO"; "fr_Ar_N"; "fr_Ar_NH"; "fr_Ar_OH"; "fr_COO";
    "fr_COO2"; "fr_C_O"; "fr_C_O_noCOO"; "fr_C_S"; "fr_HOCCN"; "fr_Imine";
    "fr_NH0"; "fr_NH1"; "fr_NH2"; "fr_N_O"; "fr_Ndealkylation1";
    "fr_Ndealkylation2"; "fr_Nhpyrrole"; "fr_SH"; "fr_aldehyde";
    "fr_alkyl_carbamate"; "fr_alkyl_halide"; "fr_allylic_oxid"; "fr_amide";
    "fr_amidine"; "fr_aniline"; "fr_aryl_methyl"; "fr_azide"; "fr_azo";
    "fr_barbitur"; "fr_benzene"; "fr_benzodiazepine"; "fr_bicyclic";
    "fr_diazo"; "fr_dihydropyridine"; "fr_epoxide"; "fr_ester"; "fr_ether";
    "fr_furan"; "fr_guanido"; "fr_halogen"; "fr_hdrzine"; "fr_hdrzone";
    "fr_imidazole"; "fr_imide"; "fr_isocyan"; "fr_isothiocyan"; "fr_ketone";
    "fr_ketone_Topliss"; "fr_lactam"; "fr_lactone"; "fr_methoxy";
    "fr_morpholine"; "fr_nitrile"; "fr_nitro"; "fr_nitro_arom";
    "fr_nitro_arom_nonortho"; "fr_nitroso"; "fr_oxazole"; "fr_oxime";
    "fr_para_hydroxylation"; "fr_phenol"; "fr_phenol_noOrthoHbond";
    "fr_phos_acid"; "fr_phos_ester"; "fr_piperdine"; "fr_piperzine";
    "fr_priamide"; "fr_prisulfonamd"; "fr_pyridine"; "fr_quatN";
    "fr_sulfide"; "fr_sulfonamd"; "fr_sulfone"; "fr_term_acetylene";
    "fr_tetrazole"; "fr_thiazole"; "fr_thiocyan"; "fr_thiophene";
    "fr_unbrch_alkane"; "fr_urea" ].

Section DescriptorsScript.

(** The standard library: [json.loads], and [str] on a JSON value. *)
Variable json_loads : string -> result json.
Variable str : json -> string.

(** RDKit.  [MolFromSmiles] is the call with [sanitize=False], which gives
    [None] for a string it cannot parse; [SanitizeMol] is the call with the
    script's [sanitize_operation] on a molecule, and raises when the
    molecule does not pass. *)
Variable Mol : Type.
Variable MolFromSmiles : string -> option Mol.
Variable SanitizeMol : Mol -> result unit.

(** [Descriptors name] is the function [rdkit.Chem.Descriptors.name],
    followed by [str]: the text the script writes for its value. *)
Variable Descriptors : string -> Mol -> result string.

(** [_FUNCTIONS]: entry by entry, the function named by the entry of
    [_NAMES]. *)
Definition _FUNCTIONS : list (Mol -> result string) := map Descriptors _NAMES.

(** [rdkit.Chem.SanitizeMol(molecule, ...)] as the script calls it: the
    wrapped function takes a molecule, and the binding raises
    [ArgumentError] for an argument that is [None]. *)
Definition call_SanitizeMol (molecule : option Mol) : result unit :=
  match molecule with
  | Some mol => SanitizeMol mol
  | None => Raise ArgumentError
  end.

Definition used_features_names (features_to_use : list string) : list string :=
  match features_to_use with
  | [] => _NAMES
  | _ => features_to_use
  end.

Definition used_features_fnc (names : list string) : result (list (Mol -> result string)) :=
  comprehension (fun name =>
    match index name _NAMES with
    | Raise e => Raise e
    | Return i =>
        match _FUNCTIONS !! i with
        | Some fnc => Return fnc
        | None => Raise IndexError
        end
    end) names.

Definition _write_header (use_fragments : bool) (names : list string) : M state unit :=
  stream_write "smiles," ;;
  (if use_fragments then stream_write "index," else ret tt) ;;
  stream_write (join "," names) ;;
  stream_write newline.

(** The two lists a line of the input gives: [smiles_list] and [index_list]. *)
Fixpoint fragment_lists (fragments : list json) : result (list json * list json) :=
  match fragments with
  | [] => Return ([], [])
  | fragment :: rest =>
      match getitem fragment "smiles" with
      | Raise e => Raise e
      | Return smiles =>
          match getitem fragment "index" with
          | Raise e => Raise e
          | Return i =>
              match fragment_lists rest with
              | Raise e => Raise e
              | Return (smiles_list, index_list) => Return (smiles :: smiles_list, i :: index_list)
              end
          end
      end
  end.

Definition read_lists (use_fragments : bool) (molecule : json) : result (list json * list json) :=
  if use_fragments then
    match getitem molecule "fragments" with
    | Raise e => Raise e
    | Return fragments =>
        match iterate fragments with
        | Raise e => Raise e
        | Return items => fragment_lists items
        end
    end
  else
    match getitem molecule "smiles" with
    | Raise e => Raise e
    | Return smiles => Return ([smiles], [])
    end.

(** The body of [for smiles in smiles_list]; [position] is the number of
    iterations before this one. *)
Definition process_smiles (use_fragments : bool) (fncs : list (Mol -> result string))
    (index_list : list json) (position : nat) (smiles : json) : M state (flow unit) :=
  stream_write quote ;;
  text <- lift (as_str smiles) ;;
  stream_write text ;;
  stream_write (quote ++ ",") ;;
  (if use_fragments then
     i <- lift (list_getitem index_list position) ;;
     stream_write (str i) ;;
     stream_write ","
   else ret tt) ;;
  count_molecule ;;
  let molecule := MolFromSmiles text in
  lift (call_SanitizeMol molecule) ;;
  match molecule with
  | None =>
      log_record (InvalidMolecule text) ;;
      count_invalid ;;
      ret Next
  | Some mol =>
      values <- lift (comprehension (fun fnc => fnc mol) fncs) ;;
      stream_write (join "," values) ;;
      stream_write newline ;;
      ret Next
  end.

(** The body of [for line in streami]. *)
Definition process_line (use_fragments : bool) (fncs : list (Mol -> result string))
    (line : string) : M state (flow unit) :=
  molecule <- lift (json_loads line) ;;
  lists <- lift (read_lists use_fragments molecule) ;;
  for_in (enumerate (fst lists)) (fun entry =>
    process_smiles use_fragments fncs (snd lists) (fst entry) (snd entry)) ;;
  ret Next.

(** [input_files] gives the lines of each input file, [output_files] the
    number of output paths.  Creating the parent directories of the output
    files, which comes first in the script, writes nothing to them. *)
Definition compute_descriptors (input_files : list (list string)) (output_files : nat)
    (use_fragments : bool) (features_to_use : list string) : M state unit :=
  let names := used_features_names features_to_use in
  fncs <- lift (used_features_fnc names) ;;
  for_in (A := unit) (enumerate input_files) (fun entry =>
    let num := fst entry in
    (if Nat.ltb num output_files then open_output else raise IndexError) ;;
    _write_header use_fragments names ;;
    for_in (snd entry) (process_line use_fragments fncs) ;;
    ret Next) ;;
  count <- gets (fun s => (number_of_invalid s, count_molecules s)) ;;
  log_record (InvalidMolecules (fst count) (snd count)).

(** No record has been reported as invalid. *)
Definition nothing_reported (s : state) : Prop :=
  number_of_invalid s = 0 /\ logging s = [].

(** The row of the output that the loop body writes for a SMILES, or the
    exception the body raises for it. *)
Definition row (use_fragments : bool) (fncs : list (Mol -> result string))
    (index_list : list json) (position : nat) (smiles : json) : result string :=
  and_then (as_str smiles) (fun text =>
  and_then (if use_fragments
            then and_then (list_getitem index_list position)
                          (fun i => Return (str i ++ ","))
            else Return "") (fun index_text =>
  and_then (call_SanitizeMol (MolFromSmiles text)) (fun _ =>
  match MolFromSmiles text with
  | None => Raise ArgumentError
  | Some mol =>
      and_then (comprehension (fun fnc => fnc mol) fncs) (fun values =>
      Return (quote ++ text ++ quote ++ "," ++ index_text ++ join "," values ++ newline))
  end))).

(** The rows that a line of an input file gives. *)
Definition line_rows (use_fragments : bool) (fncs : list (Mol -> result string))
    (line : string) : result (list string) :=
  and_then (json_loads line) (fun molecule =>
  and_then (read_lists use_fragments molecule) (fun lists =>
  comprehension (fun entry => row use_fragments fncs (snd lists) (fst entry) (snd entry))
                (enumerate (fst lists)))).

Definition header (use_fragments : bool) (names : list string) : string :=
  "smiles," ++ (if use_fragments then "index," else "") ++ join "," names ++ newline.

(** The text of an output file, given the rows of each line of its input. *)
Definition file_text (use_fragments : bool) (names : list string)
    (rows : list (list string)) : string :=
  header use_fragments names ++ text_of (concat rows).

(** The file system the script reads: [read_file path] is the list of the
    lines of the file at [path]; the paths given with [-i] are taken to
    name files that can be read. *)
Variable read_file : string -> list string.

(** [_main] after [parse_args]: the messages of [_read_configuration],
    and how the script ends, with the outcome of [compute_descriptors] when
    it is reached.  The key [fragments] is always in the configuration, so
    [use_fragments] is its value; [features_to_use] keeps its default. *)
Definition _main (args : namespace) : list string * ending (result unit * state) :=
  match _read_configuration args with
  | (messages, Exits status) => (messages, Exits status)
  | (messages, Returns configuration) =>
      (messages,
       Returns (compute_descriptors (map read_file (input_files configuration))
                                    (length (output_files configuration))
                                    (use_fragments configuration) [] initial))
  end.

End DescriptorsScript.

(** A stand-in for RDKit in the examples: a molecule is the text of its
    SMILES, and a string parses when its ring bond 1 is closed, that is
    when the digit occurs an even number of times. *)
Definition parses (smiles : string) : option string :=
  if Nat.even (length (filter (fun c => c = "1"%char) (list_ascii_of_string smiles)))
  then Some smiles
  else None.

(** A stand-in for [json.loads]: every line is read as a molecule whose
    SMILES is the line. *)
Definition loads_smiles (line : string) : result json :=
  Return (JObj [("smiles", JStr line)]).

(** A stand-in for the descriptors: the value of each is written as 0. *)
Definition example_descriptors (name mol : string) : result string := Return "0".

Definition example_str (v : json) : string := "0".

Definition example_sanitize (mol : string) : result unit := Return tt.

(** A stand-in for the file system: the file [two.json] has two lines,
    every other file one. *)
Definition example_files (path : string) : list string :=
  if String.eqb path "two.json" then ["CCO"; "C"] else ["CC"].

End ComputeDescriptors.

(** * Properties *)

#[local] Arguments ModelFactory.discovery_imports : simpl never.
#[local] Arguments ComputeDescriptors._NAMES : simpl never.

(** ** The monad *)

Lemma bind_Return {S A B} (m : M S A) (k : A -> M S B) s a s' :
  m s = (Return a, s') -> bind m k s = k a s'.
Proof. intros E. unfold bind. now rewrite E. Qed.

Lemma bind_Raise {S A B} (m : M S A) (k : A -> M S B) s e s' :
  m s = (Raise e, s') -> bind m k s = (Raise e, s').
Proof. intros E. unfold bind. now rewrite E. Qed.

(** ** The registry *)

Section RegistryFacts.

Import ModelFactory.

Context {World Model : Type}.
Variable model_identifier : string -> string.
Variable model_constructor : string -> constructor World Model.

Local Abbreviation process := (process World Model).
Local Abbreviation operation := (operation World Model).
Local Abbreviation import := (import model_identifier model_constructor).
Local Abbreviation imports := (imports model_identifier model_constructor).
Local Abbreviation _discover_models := (_discover_models model_identifier model_constructor).
Local Abbreviation discovered := (discovered model_identifier model_constructor).
Local Abbreviation create_model := (create_model model_identifier model_constructor).
Local Abbreviation exec := (exec model_identifier model_constructor).
Local Abbreviation run := (run model_identifier model_constructor).

Implicit Types (p : process) (o : operation) (ops : list operation).
Implicit Types (name module : string) (c : constructor World Model).

Lemma is_empty_dict_true (d : gmap string (constructor World Model)) :
  is_empty_dict d = true <-> d = ∅.
Proof.
  unfold is_empty_dict. rewrite bool_decide_eq_true. apply dom_empty_iff_L.
Qed.

Lemma is_empty_dict_false (d : gmap string (constructor World Model)) :
  is_empty_dict d = false <-> d ≠ ∅.
Proof.
  rewrite <- is_empty_dict_true. destruct (is_empty_dict d); intuition congruence.
Qed.

Lemma is_empty_dict_names p :
  is_empty_dict (_required_models p) = false <-> names p ≠ ∅.
Proof.
  rewrite is_empty_dict_false. unfold names. now rewrite dom_empty_iff_L.
Qed.

(** *** Imports *)

Lemma import_loaded module p :
  module ∈ sys_modules p -> import module p = (Return tt, p).
Proof.
  intros H. unfold ModelFactory.import, bind, gets.
  now rewrite bool_decide_true.
Qed.

Lemma import_fresh module p :
  module ∉ sys_modules p ->
  import module p =
    (Return tt,
     Process (<[model_identifier module := model_constructor module]> (_required_models p))
             ({[module]} ∪ sys_modules p) (world p) (log p)).
Proof.
  intros H. unfold ModelFactory.import, bind, gets.
  now rewrite bool_decide_false.
Qed.

Lemma imports_cons module rest p :
  imports (module :: rest) p = imports rest (snd (import module p)).
Proof.
  destruct (decide (module ∈ sys_modules p)) as [H|H]; simpl.
  - erewrite bind_Return by (apply import_loaded; exact H).
    now rewrite import_loaded.
  - erewrite bind_Return by (apply import_fresh; exact H).
    now rewrite import_fresh.
Qed.

Lemma imports_returns modules p : fst (imports modules p) = Return tt.
Proof.
  revert p. induction modules as [|module rest IH]; intros p; [reflexivity|].
  rewrite imports_cons. apply IH.
Qed.

Lemma import_frame module p :
  world (snd (import module p)) = world p /\ log (snd (import module p)) = log p.
Proof.
  destruct (decide (module ∈ sys_modules p)) as [H|H].
  - now rewrite import_loaded.
  - now rewrite import_fresh.
Qed.

Lemma imports_frame modules p :
  world (snd (imports modules p)) = world p /\ log (snd (imports modules p)) = log p.
Proof.
  revert p. induction modules as [|module rest IH]; intros p; [now split|].
  rewrite imports_cons.
  destruct (IH (snd (import module p))) as [-> ->]. apply import_frame.
Qed.

Lemma import_sys_modules module p :
  sys_modules (snd (import module p)) = {[module]} ∪ sys_modules p.
Proof.
  destruct (decide (module ∈ sys_modules p)) as [H|H].
  - rewrite import_loaded by exact H. simpl. set_solver.
  - now rewrite import_fresh.
Qed.

Lemma imports_sys_modules modules p :
  sys_modules (snd (imports modules p)) = list_to_set modules ∪ sys_modules p.
Proof.
  revert p. induction modules as [|module rest IH]; intros p.
  - simpl. set_solver.
  - rewrite imports_cons, IH, import_sys_modules. simpl. set_solver.
Qed.

(** An import leaves every name alone but the identifier of its module. *)
Lemma import_lookup_other module p name :
  name ≠ model_identifier module ->
  _required_models (snd (import module p)) !! name = _required_models p !! name.
Proof.
  intros Hne. destruct (decide (module ∈ sys_modules p)) as [H|H].
  - now rewrite import_loaded.
  - rewrite import_fresh by exact H. simpl. now rewrite lookup_insert_ne.
Qed.

Lemma imports_lookup_other modules p name :
  name ∉ model_identifier <$> modules ->
  _required_models (snd (imports modules p)) !! name = _required_models p !! name.
Proof.
  revert p. induction modules as [|module rest IH]; intros p Hn; [reflexivity|].
  rewrite imports_cons. rewrite fmap_cons, not_elem_of_cons in Hn.
  destruct Hn as [Hne Hrest].
  rewrite IH by exact Hrest. now apply import_lookup_other.
Qed.

Lemma import_names_mono module p : names p ⊆ names (snd (import module p)).
Proof.
  destruct (decide (module ∈ sys_modules p)) as [H|H].
  - now rewrite import_loaded.
  - rewrite import_fresh by exact H. unfold names. simpl.
    rewrite dom_insert_L. set_solver.
Qed.

Lemma imports_names_mono modules p : names p ⊆ names (snd (imports modules p)).
Proof.
  revert p. induction modules as [|module rest IH]; intros p; [reflexivity|].
  rewrite imports_cons. etransitivity; [apply import_names_mono|apply IH].
Qed.

(** The imports register nothing but the identifiers of their modules. *)
Lemma imports_names_bound modules p :
  names (snd (imports modules p)) ⊆ names p ∪ list_to_set (model_identifier <$> modules).
Proof.
  intros name Hin. destruct (decide (name ∈ model_identifier <$> modules)) as [H|H].
  - set_solver.
  - unfold names in *. rewrite elem_of_dom in Hin.
    rewrite imports_lookup_other in Hin by exact H.
    apply elem_of_union_l. now apply elem_of_dom.
Qed.

(** With all of them loaded, the imports change nothing. *)
Lemma imports_all_loaded modules p :
  list_to_set modules ⊆ sys_modules p -> snd (imports modules p) = p.
Proof.
  revert p. induction modules as [|module rest IH]; intros p Hsub; [reflexivity|].
  rewrite imports_cons. simpl in Hsub.
  rewrite import_loaded by set_solver. simpl. apply IH. set_solver.
Qed.

(** A module that was not loaded is registered under its identifier. *)
Lemma imports_registers modules p module :
  module ∈ modules -> module ∉ sys_modules p ->
  model_identifier module ∈ names (snd (imports modules p)).
Proof.
  revert p. induction modules as [|m rest IH]; intros p Hin Hnew.
  - now apply elem_of_nil in Hin.
  - rewrite imports_cons. destruct (decide (module = m)) as [->|Hne].
    + apply imports_names_mono. rewrite import_fresh by exact Hnew.
      unfold names. simpl. rewrite dom_insert_L. set_solver.
    + apply IH.
      * apply elem_of_cons in Hin. destruct Hin; [contradiction|assumption].
      * rewrite import_sys_modules. set_solver.
Qed.

(** When no two modules share an identifier, each identifier ends up bound
    to the constructor of its own module. *)
Lemma imports_lookup modules p module :
  NoDup (model_identifier <$> modules) ->
  (forall m, m ∈ modules -> m ∉ sys_modules p) ->
  module ∈ modules ->
  _required_models (snd (imports modules p)) !! model_identifier module
    = Some (model_constructor module).
Proof.
  revert p. induction modules as [|m rest IH]; intros p Hnd Hnew Hin.
  - now apply elem_of_nil in Hin.
  - rewrite fmap_cons in Hnd. apply NoDup_cons in Hnd as [Hfresh Hnd].
    rewrite imports_cons. apply elem_of_cons in Hin as [->|Hin].
    + rewrite imports_lookup_other by exact Hfresh.
      rewrite import_fresh by (apply Hnew; left).
      simpl. apply lookup_insert_eq.
    + apply IH; [exact Hnd| |exact Hin].
      intros m' Hm'. rewrite import_sys_modules.
      assert (m' ≠ m).
      { intros ->. apply Hfresh. now apply list_elem_of_fmap_2. }
      assert (m' ∉ sys_modules p) by (apply Hnew; now right).
      set_solver.
Qed.

(** *** Discovery *)

(** The process once [_discover_models] has been entered. *)
Local Abbreviation entered p :=
  (Process (_required_models p) (sys_modules p) (world p) (app (log p) (cons Discover nil))).

Lemma discover_eq p :
  _discover_models p = (Return tt, snd (imports discovery_imports (entered p))).
Proof.
  unfold ModelFactory._discover_models, emit, modify, bind.
  rewrite (surjective_pairing (imports discovery_imports _)) at 1.
  now rewrite imports_returns.
Qed.

Lemma discovered_eq p :
  discovered p = snd (imports discovery_imports (entered p)).
Proof. unfold ModelFactory.discovered. now rewrite discover_eq. Qed.

Lemma discovered_frame p :
  world (discovered p) = world p /\ log (discovered p) = (log p ++ [Discover])%list.
Proof.
  rewrite discovered_eq.
  destruct (imports_frame discovery_imports (entered p)) as [Hw Hl].
  now rewrite Hw, Hl.
Qed.

Lemma discovered_names_mono p : names p ⊆ names (discovered p).
Proof.
  rewrite discovered_eq. exact (imports_names_mono discovery_imports (entered p)).
Qed.

Lemma discovered_names_bound p :
  names (discovered p) ⊆ names p ∪ list_to_set (model_identifier <$> discovery_imports).
Proof.
  rewrite discovered_eq. exact (imports_names_bound discovery_imports (entered p)).
Qed.

Lemma discovered_sys_modules p :
  sys_modules (discovered p) = list_to_set discovery_imports ∪ sys_modules p.
Proof.
  rewrite discovered_eq. now rewrite imports_sys_modules.
Qed.

(** Discovery in a process that has loaded no model module leaves the
    registry with an entry. *)
Lemma discovered_nonempty p :
  sys_modules p = ∅ -> _required_models (discovered p) ≠ ∅.
Proof.
  intros Hnone Hempty.
  assert (model_identifier "model.baseline_model" ∈ names (discovered p)) as Hin.
  { rewrite discovered_eq. apply imports_registers.
    - unfold discovery_imports. set_solver.
    - cbn [sys_modules]. rewrite Hnone. set_solver. }
  unfold names in Hin. rewrite Hempty, dom_empty_L in Hin. set_solver.
Qed.

(** *** The two operations *)

Lemma register_model_eq name c p :
  register_model name c p =
    (Return tt,
     Process (<[name := c]> (_required_models p)) (sys_modules p) (world p) (log p)).
Proof. reflexivity. Qed.

Lemma call_eq name c p :
  call name c p =
    (fst (c (world p)),
     Process (_required_models p) (sys_modules p) (snd (c (world p)))
             (log p ++ [Construct name])%list).
Proof.
  unfold call, emit, modify, bind, set_world. simpl.
  now destruct (c (world p)).
Qed.

(** The state in which [create_model] looks the name up. *)
Lemma create_model_eq name p :
  create_model name p =
    let q := if is_empty_dict (_required_models p) then discovered p else p in
    match _required_models q !! name with
    | None => (Raise (KeyError name), q)
    | Some c => call name c q
    end.
Proof.
  unfold ModelFactory.create_model, bind, gets, ret, raise, ModelFactory.discovered.
  destruct (is_empty_dict (_required_models p)).
  - rewrite discover_eq. cbn [fst snd].
    now destruct (_ !! name).
  - now destruct (_required_models p !! name).
Qed.

Lemma create_model_populated name p :
  _required_models p ≠ ∅ ->
  create_model name p =
    match _required_models p !! name with
    | None => (Raise (KeyError name), p)
    | Some c => call name c p
    end.
Proof.
  intros H. rewrite create_model_eq.
  apply is_empty_dict_false in H. now rewrite H.
Qed.

Lemma exec_Create_populated name p :
  _required_models p ≠ ∅ ->
  _required_models (exec (Create name) p) = _required_models p /\
  sys_modules (exec (Create name) p) = sys_modules p /\
  discoveries (exec (Create name) p) = discoveries p.
Proof.
  intros H. simpl. rewrite create_model_populated by exact H.
  destruct (_required_models p !! name) as [c|]; [rewrite call_eq|]; simpl.
  - unfold discoveries. cbn [log]. rewrite filter_app, length_app.
    repeat split. simpl. lia.
  - now repeat split.
Qed.

Lemma exec_Register name c p :
  _required_models (exec (Register name c) p) = <[name := c]> (_required_models p) /\
  sys_modules (exec (Register name c) p) = sys_modules p /\
  log (exec (Register name c) p) = log p.
Proof. now repeat split. Qed.

(** A lookup changes neither the registry nor the loaded modules: what
    [create_model] leaves of them is what its guard made of them. *)
Lemma create_model_registry name p :
  let q := if is_empty_dict (_required_models p) then discovered p else p in
  _required_models (snd (create_model name p)) = _required_models q /\
  sys_modules (snd (create_model name p)) = sys_modules q.
Proof.
  rewrite create_model_eq. cbv zeta.
  destruct (_ !! name) as [c|]; [rewrite call_eq|]; now split.
Qed.

Lemma exec_names_mono o p : names p ⊆ names (exec o p).
Proof.
  destruct o as [name c|name]; unfold names; cbn [ModelFactory.exec].
  - cbn. rewrite dom_insert_L. set_solver.
  - destruct (create_model_registry name p) as [-> _].
    destruct (is_empty_dict (_required_models p)); [|reflexivity].
    apply discovered_names_mono.
Qed.

Lemma run_names_mono ops p : names p ⊆ names (run ops p).
Proof.
  revert p. induction ops as [|o ops IH]; intros p; [reflexivity|].
  simpl. etransitivity; [apply exec_names_mono|apply IH].
Qed.

(** The names an operation adds are the one it registers and the
    identifiers of the discovery list. *)
Lemma exec_names_bound o p :
  names (exec o p) ⊆
    names p ∪ list_to_set (model_identifier <$> discovery_imports)
            ∪ (match registers o with Some n => {[n]} | None => ∅ end).
Proof.
  destruct o as [name c|name]; unfold names; cbn [ModelFactory.exec registers].
  - cbn. rewrite dom_insert_L. set_solver.
  - destruct (create_model_registry name p) as [-> _].
    destruct (is_empty_dict (_required_models p)).
    + pose proof (discovered_names_bound p). unfold names in *. set_solver.
    + set_solver.
Qed.

Lemma exec_populated o p :
  _required_models p ≠ ∅ ->
  _required_models (exec o p) ≠ ∅ /\ discoveries (exec o p) = discoveries p.
Proof.
  intros H. destruct o as [name c|name].
  - split; [|reflexivity]. simpl. apply insert_non_empty.
  - destruct (exec_Create_populated name p H) as (-> & _ & ->). now split.
Qed.

Lemma run_populated ops p :
  _required_models p ≠ ∅ ->
  _required_models (run ops p) ≠ ∅ /\ discoveries (run ops p) = discoveries p.
Proof.
  revert p. induction ops as [|o ops IH]; intros p H; [now split|].
  simpl. destruct (exec_populated o p H) as [H1 <-]. now apply IH.
Qed.

Lemma run_names_bound ops p :
  names (run ops p) ⊆
    names p ∪ list_to_set (model_identifier <$> discovery_imports)
            ∪ list_to_set (omap registers ops).
Proof.
  remember (list_to_set (model_identifier <$> discovery_imports) : gset string)
    as known eqn:Hknown.
  revert p. induction ops as [|o ops IH]; intros p.
  - cbn. set_solver.
  - change (run (o :: ops) p) with (run ops (exec o p)).
    pose proof (IH (exec o p)) as Hrest.
    pose proof (exec_names_bound o p) as Hstep. rewrite <- Hknown in Hstep.
    assert (list_to_set (omap registers (o :: ops)) =@{gset string}
            match registers o with Some n => {[n]} | None => ∅ end
              ∪ list_to_set (omap registers ops)) as ->.
    { cbn. destruct (registers o); cbn; set_solver. }
    intros name Hin. apply Hrest in Hin.
    rewrite !elem_of_union in Hin. rewrite !elem_of_union.
    destruct Hin as [[Hin|Hin]|Hin]; [|tauto|tauto].
    apply Hstep in Hin. rewrite !elem_of_union in Hin. tauto.
Qed.

Lemma create_model_absent name p :
  name ∉ names p ->
  name ∉ model_identifier <$> discovery_imports ->
  fst (create_model name p) = Raise (KeyError name) /\
  _required_models (snd (create_model name p)) !! name = None.
Proof.
  intros Hp Hd. rewrite create_model_eq. cbv zeta.
  set (q := if is_empty_dict (_required_models p) then discovered p else p).
  assert (_required_models q !! name = None) as Hq.
  { apply not_elem_of_dom. fold (names q). subst q.
    destruct (is_empty_dict (_required_models p)); [|exact Hp].
    pose proof (discovered_names_bound p). set_solver. }
  rewrite Hq. now split.
Qed.

Lemma create_model_discoveries name p :
  discoveries (snd (create_model name p)) =
    if is_empty_dict (_required_models p) then S (discoveries p) else discoveries p.
Proof.
  rewrite create_model_eq. cbv zeta.
  set (q := if is_empty_dict (_required_models p) then discovered p else p).
  assert (discoveries q =
          if is_empty_dict (_required_models p) then S (discoveries p) else discoveries p)
    as <-.
  { subst q. destruct (is_empty_dict (_required_models p)); [|reflexivity].
    unfold discoveries. destruct (discovered_frame p) as [_ ->].
    rewrite filter_app, length_app. simpl. lia. }
  destruct (_required_models q !! name) as [c|]; [rewrite call_eq|]; [|reflexivity].
  unfold discoveries. cbn [log snd]. rewrite filter_app, length_app. simpl. lia.
Qed.

Lemma fresh_or_populated_exec o p :
  fresh_or_populated p -> fresh_or_populated (exec o p).
Proof.
  intros [Hle Hfresh]. destruct o as [name c|name].
  - split; [exact Hle|]. intros Hempty. cbn in Hempty.
    now apply insert_non_empty in Hempty.
  - cbn [ModelFactory.exec]. unfold fresh_or_populated.
    rewrite create_model_discoveries.
    destruct (create_model_registry name p) as [-> _].
    destruct (is_empty_dict (_required_models p)) eqn:E.
    + apply is_empty_dict_true in E. destruct (Hfresh E) as [Hnone ->].
      split; [lia|]. intros Hempty. now apply discovered_nonempty in Hempty.
    + apply is_empty_dict_false in E. split; [exact Hle|]. intros Hempty. contradiction.
Qed.

Lemma fresh_or_populated_run ops p :
  fresh_or_populated p -> fresh_or_populated (run ops p).
Proof.
  revert p. induction ops as [|o ops IH]; intros p H; [exact H|].
  simpl. apply IH. now apply fresh_or_populated_exec.
Qed.

Lemma settled_after_create name p : settled (exec (Create name) p).
Proof.
  unfold settled. cbn [ModelFactory.exec].
  destruct (create_model_registry name p) as [-> ->].
  destruct (is_empty_dict (_required_models p)) eqn:E.
  - right. rewrite discovered_sys_modules. set_solver.
  - left. now apply is_empty_dict_false.
Qed.

Lemma settled_create_registry name p :
  settled p ->
  _required_models (exec (Create name) p) = _required_models p /\
  sys_modules (exec (Create name) p) = sys_modules p.
Proof.
  intros H. cbn [ModelFactory.exec].
  destruct (create_model_registry name p) as [-> ->].
  destruct (is_empty_dict (_required_models p)) eqn:E; [|now split].
  destruct H as [H|H]; [now apply is_empty_dict_false in H; congruence|].
  rewrite discovered_eq, imports_all_loaded by exact H. now split.
Qed.

Lemma settled_exec o p : settled p -> settled (exec o p).
Proof.
  intros H. destruct o as [name c|name].
  - left. cbn. apply insert_non_empty.
  - destruct (settled_create_registry name p H) as [Hr Hs].
    unfold settled. now rewrite Hr, Hs.
Qed.

Lemma settled_run ops p : settled p -> settled (run ops p).
Proof.
  revert p. induction ops as [|o ops IH]; intros p H; [exact H|].
  simpl. apply IH. now apply settled_exec.
Qed.

(** In a populated registry an operation changes no binding but the one it
    registers. *)
Lemma exec_lookup_populated o p name :
  _required_models p ≠ ∅ -> registers o ≠ Some name ->
  _required_models (exec o p) !! name = _required_models p !! name.
Proof.
  intros Hp Hreg. destruct o as [n c|n].
  - cbn. apply lookup_insert_ne. intros ->. now apply Hreg.
  - now destruct (exec_Create_populated n p Hp) as (-> & _ & _).
Qed.

Lemma run_lookup_populated ops p name :
  _required_models p ≠ ∅ -> Forall (fun o => registers o ≠ Some name) ops ->
  _required_models (run ops p) !! name = _required_models p !! name.
Proof.
  revert p. induction ops as [|o ops IH]; intros p Hp Hall; [reflexivity|].
  apply Forall_cons in Hall as [Ho Hall]. simpl.
  rewrite IH; [now apply exec_lookup_populated| |exact Hall].
  now apply exec_populated.
Qed.

(** C1: for a name that was never registered, neither by a [register] call
    of the client nor by the discovery procedure, [create] fails with
    Key-Not-Found, which reaches the caller, and no model is returned; this
    holds at the start, when the registry is empty and discovery has not
    run, and after any operations of the client, so after discovery too. *)
Theorem create_model_unregistered w ops name :
  Forall (fun o => registers o ≠ Some name) ops ->
  name ∉ model_identifier <$> discovery_imports ->
  fst (create_model name (run ops (start w))) = Raise (KeyError name) /\
  _required_models (snd (create_model name (run ops (start w)))) !! name = None.
Proof.
  intros Hops Hdisc. apply create_model_absent; [|exact Hdisc].
  intros Hin. apply run_names_bound in Hin.
  rewrite !elem_of_union, !elem_of_list_to_set in Hin.
  destruct Hin as [[Hin|Hin]|Hin].
  - unfold names in Hin. cbn in Hin. rewrite dom_empty_L in Hin. set_solver.
  - contradiction.
  - apply list_elem_of_omap in Hin as (o & Ho & Hr).
    rewrite Forall_forall in Hops. now apply (Hops o Ho).
Qed.

(** C2: the discovery procedure runs at most once in the life of a process;
    and once [create] has been called, for any name and also when its
    lookup failed, no later [create] call changes the set of registered
    names. *)
Theorem discovery_at_most_once :
  (forall w ops, discoveries (run ops (start w)) <= 1) /\
  (forall p first ops name,
     names (exec (Create name) (run ops (exec (Create first) p)))
       = names (run ops (exec (Create first) p))).
Proof.
  split.
  - intros w ops.
    assert (fresh_or_populated (start w : process)) as H0 by (split; [cbn; lia|now split]).
    now destruct (fresh_or_populated_run ops _ H0).
  - intros p first ops name. unfold names.
    assert (settled (run ops (exec (Create first) p))) as H
      by apply settled_run, settled_after_create.
    now destruct (settled_create_registry name _ H) as [-> _].
Qed.

(** C4: after [register(n, c1)] and then [register(n, c2)], the name is
    bound to [c2], and [create(n)] calls [c2] and returns what it returns,
    whatever the client did in between short of registering [n] again. *)
Theorem reregistration_overwrites p name c1 c2 ops :
  Forall (fun o => registers o ≠ Some name) ops ->
  let q := run ops (exec (Register name c2) (exec (Register name c1) p)) in
  _required_models q !! name = Some c2 /\
  fst (create_model name q) = fst (c2 (world q)) /\
  world (snd (create_model name q)) = snd (c2 (world q)) /\
  log (snd (create_model name q)) = (log q ++ [Construct name])%list.
Proof.
  intros Hops q.
  assert (_required_models (exec (Register name c2) (exec (Register name c1) p)) ≠ ∅)
    as Hne by (cbn; apply insert_non_empty).
  assert (_required_models q !! name = Some c2) as Hq.
  { subst q. rewrite run_lookup_populated by assumption. cbn. apply lookup_insert_eq. }
  split; [exact Hq|].
  rewrite create_model_populated by (subst q; now apply run_populated).
  rewrite Hq, call_eq. now repeat split.
Qed.

(** C5: when [c] is the constructor registered for [n], a call of
    [create(n)] calls [c] once, with no arguments, and returns its result;
    the registry keeps no instance: it is left as it was, and the next
    call of [create(n)] calls [c] again. *)
Theorem create_model_calls_constructor p name c :
  _required_models p !! name = Some c ->
  let q := snd (create_model name p) in
  create_model name p =
    (fst (c (world p)),
     Process (_required_models p) (sys_modules p) (snd (c (world p)))
             (log p ++ [Construct name])%list) /\
  create_model name q =
    (fst (c (world q)),
     Process (_required_models p) (sys_modules p) (snd (c (world q)))
             (log p ++ [Construct name] ++ [Construct name])%list) /\
  constructions name q = S (constructions name p) /\
  constructions name (snd (create_model name q)) = S (S (constructions name p)).
Proof.
  intros Hc q.
  assert (forall r, _required_models r !! name = Some c ->
            create_model name r = call name c r) as Hcall.
  { intros r Hr. rewrite create_model_populated by (intros E; now rewrite E in Hr).
    now rewrite Hr. }
  assert (create_model name p = call name c p) as E1 by now apply Hcall.
  assert (create_model name q = call name c q) as E2.
  { apply Hcall. subst q. now rewrite E1, call_eq. }
  rewrite E2. subst q. rewrite E1, !call_eq. cbn [fst snd world log
    _required_models sys_modules]. rewrite <- app_assoc.
  repeat split; unfold constructions; cbn [log];
    rewrite ?filter_app, ?length_app; cbn;
    rewrite ?decide_True by reflexivity; cbn; lia.
Qed.

(** C6: [register] has no failure mode: for every name and constructor it
    returns, with no value, a registry in which the name is bound to the
    constructor, whether the name was bound before or not. *)
Theorem register_model_total name c p :
  register_model name c p =
    (Return tt,
     Process (<[name := c]> (_required_models p)) (sys_modules p) (world p) (log p)) /\
  _required_models (snd (register_model name c p)) !! name = Some c /\
  names (snd (register_model name c p)) = {[name]} ∪ names p /\
  delete name (_required_models (snd (register_model name c p)))
    = delete name (_required_models p).
Proof.
  rewrite register_model_eq. cbn [snd _required_models]. unfold names. cbn.
  repeat split.
  - apply lookup_insert_eq.
  - apply dom_insert_L.
  - apply delete_insert_eq.
Qed.

(** C9: under [register] and [create] the set of registered names only
    grows: no operation removes an entry, so a registry with an entry keeps
    one; and after a [register] call the registry is never found empty
    again, so that a [register] before the first [create] leaves the
    discovery procedure unrun for the rest of the process. *)
Theorem registry_only_grows :
  (forall p ops, names p ⊆ names (run ops p)) /\
  (forall p ops, size (names p) <= size (names (run ops p))) /\
  (forall p name c ops,
     is_empty_dict (_required_models (run ops (exec (Register name c) p))) = false /\
     discoveries (run ops (exec (Register name c) p)) = discoveries p) /\
  (forall w name c ops, discoveries (run (Register name c :: ops) (start w)) = 0).
Proof.
  assert (forall p name c ops,
     is_empty_dict (_required_models (run ops (exec (Register name c) p))) = false /\
     discoveries (run ops (exec (Register name c) p)) = discoveries p) as Hreg.
  { intros p name c ops.
    destruct (run_populated ops (exec (Register name c) p)) as [H1 H2].
    - cbn. apply insert_non_empty.
    - split; [now apply is_empty_dict_false|exact H2]. }
  split; [|split; [|split]].
  - intros p ops. apply run_names_mono.
  - intros p ops. apply subseteq_size, run_names_mono.
  - exact Hreg.
  - intros w name c ops. exact (proj2 (Hreg (start w) name c ops)).
Qed.

End RegistryFacts.

(** ** The registry with the registration table of the specification *)

Section TableFacts.

Import ModelFactory.

Context {World Model : Type}.
Variable model_constructor : string -> constructor World Model.

Local Abbreviation create_model := (create_model table_identifier model_constructor).
Local Abbreviation exec := (exec table_identifier model_constructor).
Local Abbreviation run := (run table_identifier model_constructor).

Lemma table_identifiers_NoDup : NoDup (table_identifier <$> discovery_imports).
Proof.
  assert (bool_decide (NoDup (table_identifier <$> discovery_imports)) = true) as H
    by (vm_compute; reflexivity).
  now apply bool_decide_eq_true in H.
Qed.

Lemma table_identifiers_size :
  size (list_to_set (table_identifier <$> discovery_imports) : gset string) = 19.
Proof.
  rewrite size_list_to_set by apply table_identifiers_NoDup. reflexivity.
Qed.

Lemma first_create_registry (w : World) first :
  _required_models (exec (Create first) (start w))
    = _required_models (discovered table_identifier model_constructor (start w)).
Proof.
  cbn [ModelFactory.exec].
  destruct (create_model_registry table_identifier model_constructor first (start w))
    as [-> _].
  assert (is_empty_dict (_required_models (start w)) = true) as ->
    by now apply is_empty_dict_true.
  reflexivity.
Qed.

Lemma first_create_lookup (w : World) first module :
  module ∈ discovery_imports ->
  _required_models (exec (Create first) (start w)) !! table_identifier module
    = Some (model_constructor module).
Proof.
  intros Hin. rewrite first_create_registry, discovered_eq.
  apply imports_lookup; [apply table_identifiers_NoDup| |exact Hin].
  intros m _. cbn. set_solver.
Qed.

Lemma first_create_names (w : World) first :
  names (exec (Create first) (start w))
    = list_to_set (table_identifier <$> discovery_imports).
Proof.
  apply set_eq. intros name. split.
  - unfold names. rewrite first_create_registry. intros Hin.
    apply (discovered_names_bound table_identifier model_constructor) in Hin.
    apply elem_of_union in Hin as [Hin|Hin]; [|exact Hin].
    unfold names in Hin. cbn in Hin. rewrite dom_empty_L in Hin. set_solver.
  - rewrite elem_of_list_to_set. intros Hin.
    apply list_elem_of_fmap in Hin as (module & -> & Hin).
    unfold names. apply elem_of_dom. rewrite first_create_lookup by exact Hin. eauto.
Qed.

(** C3, as the code has it: a [create] call that finds the registry empty,
    as the first operation of a process does, runs the discovery procedure,
    which registers every model of its list: 19 names, each bound to the
    constructor of its module.  From then on the procedure does not run
    again and every name of the list resolves. *)
Theorem first_create_populates (w : World) first ops :
  let p := exec (Create first) (start w) in
  let q := run ops p in
  discoveries p = 1 /\
  size (names p) = 19 /\
  Forall (fun module =>
            _required_models p !! table_identifier module = Some (model_constructor module))
         discovery_imports /\
  discoveries q = 1 /\
  18 <= size (names q) /\
  Forall (fun module => is_Some (_required_models q !! table_identifier module))
         discovery_imports.
Proof.
  intros p q.
  assert (discoveries p = 1) as Hp.
  { subst p. cbn [ModelFactory.exec]. rewrite create_model_discoveries.
    assert (is_empty_dict (_required_models (start w)) = true) as ->
      by now apply is_empty_dict_true.
    reflexivity. }
  assert (size (names p) = 19) as Hsize.
  { subst p. rewrite first_create_names. apply table_identifiers_size. }
  assert (_required_models p ≠ ∅) as Hne.
  { intros E. unfold names in Hsize. rewrite E, dom_empty_L, size_empty in Hsize. lia. }
  pose proof (run_names_mono table_identifier model_constructor ops p) as Hmono.
  repeat split.
  - exact Hp.
  - exact Hsize.
  - apply Forall_forall. intros module Hin. now apply first_create_lookup.
  - subst q. destruct (run_populated table_identifier model_constructor ops p Hne)
      as [_ ->]. exact Hp.
  - apply subseteq_size in Hmono. fold q in Hmono. lia.
  - apply Forall_forall. intros module Hin. apply elem_of_dom. apply Hmono.
    unfold names. apply elem_of_dom. subst p. rewrite first_create_lookup by exact Hin.
    eauto.
Qed.

End TableFacts.

(** ** The registry on a client's world *)

Section ClientFacts.

Import ModelFactory.

Local Abbreviation identifier := table_identifier.
Local Abbreviation constructors := (fun _ : string => fresh_instance).

(** C3, as stated, fails: the first [create] call of a process that has
    registered a model of its own finds the registry populated and runs no
    discovery, and a name of the discovery list does not resolve: here
    "baseline", of the imported module [model.baseline_model]. *)
Lemma first_create_after_register_skips_discovery :
  let p := run identifier constructors
             [Register "mine" fresh_instance; Create "mine"] (start 0) in
  discoveries p = 0 /\
  In "model.baseline_model" discovery_imports /\
  identifier "model.baseline_model" = "baseline" /\
  fst (create_model identifier constructors "baseline" p) = Raise (KeyError "baseline") /\
  discoveries (snd (create_model identifier constructors "baseline" p)) = 0.
Proof. vm_compute. repeat split; tauto. Qed.

(** The scenario of the specification: on an empty registry
    [create("baseline")] runs the discovery and builds an instance, and
    [create("not_a_model")] then fails. *)
Example create_baseline_then_unknown :
  let p := start 0 in
  fst (create_model identifier constructors "baseline" p) = Return 0 /\
  size (names (snd (create_model identifier constructors "baseline" p))) = 19 /\
  fst (create_model identifier constructors "not_a_model"
         (snd (create_model identifier constructors "baseline" p)))
    = Raise (KeyError "not_a_model").
Proof. vm_compute. repeat split; reflexivity. Qed.

Lemma create_model_unregistered_witness :
  Forall (fun o => registers o ≠ Some "not_a_model")
         [Create "baseline"; Register "mine" fresh_instance] /\
  ("not_a_model" ∉ identifier <$> discovery_imports) /\
  fst (create_model identifier constructors "not_a_model"
         (run identifier constructors
              [Create "baseline"; Register "mine" fresh_instance] (start 0)))
    = Raise (KeyError "not_a_model") /\
  _required_models
    (snd (create_model identifier constructors "not_a_model"
            (run identifier constructors
                 [Create "baseline"; Register "mine" fresh_instance] (start 0))))
    !! "not_a_model" = None.
Proof.
  assert (Forall (fun o : operation nat nat => registers o ≠ Some "not_a_model")
                 [Create "baseline"; Register "mine" fresh_instance]) as Hops
    by (repeat constructor; discriminate).
  assert ("not_a_model" ∉ identifier <$> discovery_imports) as Hdisc.
  { assert (bool_decide ("not_a_model" ∉ identifier <$> discovery_imports) = true) as H
      by (vm_compute; reflexivity).
    now apply bool_decide_eq_true in H. }
  split; [exact Hops|]. split; [exact Hdisc|].
  exact (create_model_unregistered identifier constructors 0 _ _ Hops Hdisc).
Defined.

Lemma reregistration_overwrites_witness :
  Forall (fun o => registers o ≠ Some "mine")
         [Create "mine"; Register "other" failing_constructor; Create "other"] /\
  fst (create_model identifier constructors "mine"
         (run identifier constructors
            [Create "mine"; Register "other" failing_constructor; Create "other"]
            (exec identifier constructors (Register "mine" fresh_instance)
               (exec identifier constructors (Register "mine" failing_constructor)
                  (start 0)))))
    = Return 1.
Proof.
  assert (Forall (fun o : operation nat nat => registers o ≠ Some "mine")
            [Create "mine"; Register "other" failing_constructor; Create "other"])
    as Hops by (repeat constructor; discriminate).
  split; [exact Hops|].
  exact (proj1 (proj2 (reregistration_overwrites identifier constructors
                         (start 0) "mine" failing_constructor fresh_instance _ Hops))).
Defined.

Lemma create_model_calls_constructor_witness :
  let p := exec identifier constructors (Register "mine" fresh_instance) (start 0) in
  _required_models p !! "mine" = Some fresh_instance /\
  fst (create_model identifier constructors "mine" p) = Return 0 /\
  fst (create_model identifier constructors "mine"
         (snd (create_model identifier constructors "mine" p))) = Return 1.
Proof.
  assert (_required_models
            (exec identifier constructors (Register "mine" fresh_instance) (start 0))
            !! "mine" = Some fresh_instance) as Hc by (cbn; apply lookup_insert_eq).
  split; [exact Hc|].
  pose proof (create_model_calls_constructor identifier constructors _ _ _ Hc) as H.
  cbv zeta in H. destruct H as (H1 & H2 & _).
  split; [now rewrite H1|now rewrite H2].
Defined.

End ClientFacts.

(** ** Text *)

Lemma append_String (x : ascii) (a b : string) : String x a ++ b = String x (a ++ b).
Proof. reflexivity. Qed.

Lemma append_assoc (a b c : string) : (a ++ b) ++ c = a ++ (b ++ c).
Proof.
  induction a as [|x a IH]; [reflexivity|].
  now rewrite !append_String, IH.
Qed.

Lemma append_empty_r (a : string) : a ++ "" = a.
Proof.
  induction a as [|x a IH]; [reflexivity|].
  now rewrite append_String, IH.
Qed.

(** ** Enumerations *)

Lemma elem_of_enumerate_from {X} (l : list X) n i x :
  (i, x) ∈ enumerate_from n l -> exists k, i = n + k /\ l !! k = Some x.
Proof.
  revert n. induction l as [|y l IH]; intros n Hin.
  - now apply elem_of_nil in Hin.
  - cbn [enumerate_from] in Hin. apply elem_of_cons in Hin as [[= -> ->]|Hin].
    + exists 0. split; [lia|reflexivity].
    + apply IH in Hin as (k & -> & Hk). exists (S k). split; [lia|exact Hk].
Qed.

(** ** add_activity.py *)

Section AddActivityFacts.

Import AddActivity.

Variable json_loads : string -> result json.
Variable json_dumps : json -> string.

Local Abbreviation read_activity := (read_activity json_loads).
Local Abbreviation write_to_json := (write_to_json json_loads json_dumps).
Local Abbreviation records_from := (records_from json_loads).

(** The body of the loop of [write_to_json]. *)
Local Abbreviation write_record activity :=
  (fun entry : nat * string =>
     bind (lift (json_loads (snd entry))) (fun score =>
     bind (lift (getitem score "name")) (fun name =>
     bind (lift (getitem score "score")) (fun value =>
     bind (lift (list_getitem activity (fst entry))) (fun label =>
     bind (if negb (Nat.eqb (fst entry) 0) then output_stream_write newline else ret tt) (fun _ =>
     bind (output_stream_write (json_dumps (output_record name value label))) (fun _ =>
     ret (Next (A := unit))))))))).

Local Abbreviation text_from := (text_from json_dumps).

Lemma text_from_S n m records : text_from (S n) records = text_from (S m) records.
Proof.
  revert n m. induction records as [|r rest IH]; intros n m; [reflexivity|].
  simpl. f_equal. f_equal. apply IH.
Qed.

Lemma text_from_join records :
  text_from 0 records = join newline (map json_dumps records).
Proof.
  induction records as [|r rest IH]; [reflexivity|].
  destruct rest as [|r' rest'].
  - cbn. now rewrite append_empty_r.
  - change (text_from 0 (r :: r' :: rest'))
      with (json_dumps r ++ text_from 1 (r' :: rest')).
    change (join newline (map json_dumps (r :: r' :: rest')))
      with (json_dumps r ++ newline ++ join newline (map json_dumps (r' :: rest'))).
    rewrite <- IH. f_equal. cbn [text_from Nat.eqb negb]. f_equal.
    change ("" ++ ?x) with x. f_equal. apply text_from_S.
Qed.

(** One turn of the loop: either line [num] gives a record, which is
    written, or it raises and nothing is written. *)
Lemma write_record_step activity num line written :
  match records_from num [line] activity with
  | [record] =>
      write_record activity (num, line) written
        = (Return Next, written ++ text_from num [record])
  | _ => exists e, write_record activity (num, line) written = (Raise e, written)
  end.
Proof.
  cbn [AddActivity.records_from fst snd]. unfold bind, lift.
  destruct (json_loads line) as [score|e]; [|eauto].
  destruct (getitem score "name") as [name|e]; [|eauto].
  destruct (getitem score "score") as [value|e]; [|eauto].
  destruct (list_getitem activity num) as [label|e]; [|eauto].
  cbn [text_from]. rewrite append_empty_r.
  destruct num as [|n]; cbn; [reflexivity|].
  now rewrite append_assoc.
Qed.

Lemma records_from_cons num line rest activity :
  records_from num (line :: rest) activity =
    match records_from num [line] activity with
    | [record] => record :: records_from (S num) rest activity
    | _ => []
    end.
Proof.
  cbn [AddActivity.records_from].
  destruct (json_loads line) as [score|e]; [|reflexivity].
  destruct (getitem score "name"), (getitem score "score"),
    (list_getitem activity num); reflexivity.
Qed.

Lemma write_records_spec activity lines num written :
  let records := records_from num lines activity in
  let run := for_in (enumerate_from num lines) (write_record activity) written in
  snd run = written ++ text_from num records /\
  (length records = length lines /\ fst run = Return Next \/
   length records < length lines /\ exists e, fst run = Raise e).
Proof.
  revert num written. induction lines as [|line rest IH]; intros num written.
  - cbn. rewrite append_empty_r. auto.
  - cbv zeta. rewrite records_from_cons.
    pose proof (write_record_step activity num line written) as Hstep.
    cbn [enumerate_from for_in].
    destruct (records_from num [line] activity) as [|record [|? ?]].
    + destruct Hstep as [e He]. erewrite bind_Raise by exact He.
      cbn. rewrite append_empty_r. split; [reflexivity|]. right. split; [lia|eauto].
    + erewrite bind_Return by exact Hstep.
      destruct (IH (S num) (written ++ text_from num [record])) as [Hw Hr].
      rewrite Hw. split.
      * cbn [text_from]. now rewrite append_empty_r, !append_assoc.
      * cbn [length]. destruct Hr as [[Hl Hf]|[Hl Hf]]; [left|right]; split;
          solve [lia|exact Hf].
    + destruct Hstep as [e He]. erewrite bind_Raise by exact He.
      cbn. rewrite append_empty_r. split; [reflexivity|]. right. split; [lia|eauto].
Qed.

(** Record [i] is the one built from line [i] and [activity[i]]. *)
Lemma records_from_lookup activity lines num i record :
  records_from num lines activity !! i = Some record ->
  exists line score name value label,
    lines !! i = Some line /\
    json_loads line = Return score /\
    getitem score "name" = Return name /\
    getitem score "score" = Return value /\
    activity !! (num + i) = Some label /\
    record = JObj [("name", name); ("score", value); ("activity", label)].
Proof.
  revert num i. induction lines as [|line rest IH]; intros num i; [discriminate|].
  cbn [AddActivity.records_from].
  destruct (json_loads line) as [score|e] eqn:El; [|discriminate].
  destruct (getitem score "name") as [name|e] eqn:En; [|discriminate].
  destruct (getitem score "score") as [value|e] eqn:Ev; [|discriminate].
  unfold list_getitem.
  destruct (activity !! num) as [label|] eqn:Ea; [|discriminate].
  destruct i as [|i].
  - intros [= <-]. exists line, score, name, value, label.
    rewrite Nat.add_0_r. now repeat split.
  - intros H. apply IH in H as (l & s & n & v & a & H1 & H2 & H3 & H4 & H5 & H6).
    exists l, s, n, v, a. replace (num + S i) with (S num + i) by lia.
    now repeat split.
Qed.

(** C7: the output of [write_to_json] is the records, one per line and in
    the order of the lines of the score file, where record [i] is the
    object with the three keys "name", "score" and "activity", in this
    order: the "name" and the "score" of line [i] of the score file and,
    as "activity", element [i] of the activity list; a run that returns
    has written a record for every line. *)
Theorem write_to_json_zips input_score activity before :
  let records := records_from 0 input_score activity in
  snd (write_to_json input_score activity before)
    = join newline (map json_dumps records) /\
  (fst (write_to_json input_score activity before) = Return tt
   <-> length records = length input_score) /\
  Forall (fun entry =>
            exists line score name value label,
              input_score !! fst entry = Some line /\
              json_loads line = Return score /\
              getitem score "name" = Return name /\
              getitem score "score" = Return value /\
              activity !! fst entry = Some label /\
              snd entry = JObj [("name", name); ("score", value); ("activity", label)])
         (enumerate records).
Proof.
  intros records.
  destruct (write_records_spec activity input_score 0 "") as [Hw Hr].
  fold records in Hw, Hr. rewrite <- text_from_join.
  assert (write_to_json input_score activity before =
          match for_in (enumerate input_score) (write_record activity) "" with
          | (Return _, s) => (Return tt, s)
          | (Raise e, s) => (Raise e, s)
          end) as -> by reflexivity.
  unfold enumerate in *.
  destruct (for_in (enumerate_from 0 input_score) (write_record activity) "")
    as [f s]. cbn [fst snd] in Hw, Hr. subst s.
  split; [now destruct f|]. split.
  - destruct Hr as [[Hl ->]|[Hl [e ->]]]; cbn [fst]; split; intros H;
      solve [reflexivity|exact Hl|discriminate|lia].
  - apply Forall_forall. intros [i record] Hin.
    apply elem_of_enumerate_from in Hin as (k & -> & Hk).
    apply records_from_lookup in Hk. exact Hk.
Qed.

(** C10: [read_activity] reads the first line of the activity file and no
    other: on a file with a line it gives the "activity" field of that
    line as parsed, whatever lines follow, and on an empty file it returns
    [None] and does not fail. *)
Theorem read_activity_first_line :
  (forall line rest,
     read_activity (line :: rest) tt =
       (match json_loads line with
        | Return activity => getitem activity "activity"
        | Raise e => Raise e
        end, tt)) /\
  (forall line rest, read_activity (line :: rest) tt = read_activity [line] tt) /\
  read_activity [] tt = (Return JNull, tt).
Proof.
  assert (forall line rest,
     read_activity (line :: rest) tt =
       (match json_loads line with
        | Return activity => getitem activity "activity"
        | Raise e => Raise e
        end, tt)) as Hfirst.
  { intros line rest. unfold AddActivity.read_activity. cbn [for_in].
    unfold bind, lift, ret.
    destruct (json_loads line) as [activity|e]; [|reflexivity].
    now destruct (getitem activity "activity"). }
  split; [exact Hfirst|]. split; [|reflexivity].
  intros line rest. now rewrite !Hfirst.
Qed.

End AddActivityFacts.

(** ** Invariants of monadic code *)

Lemma keeps_ret {S A} (I : S -> Prop) (a : A) : keeps I (ret a).
Proof. intros s H. exact H. Qed.

Lemma keeps_raise {S A} (I : S -> Prop) e : keeps I (raise (A := A) e).
Proof. intros s H. exact H. Qed.

Lemma keeps_lift {S A} (I : S -> Prop) (r : result A) : keeps I (lift r).
Proof. intros s H. exact H. Qed.

Lemma keeps_gets {S A} (I : S -> Prop) (f : S -> A) : keeps I (gets f).
Proof. intros s H. exact H. Qed.

Lemma keeps_bind {S A B} (I : S -> Prop) (m : M S A) (k : A -> M S B) :
  keeps I m -> (forall a, keeps I (k a)) -> keeps I (bind m k).
Proof.
  intros Hm Hk s H. unfold bind. specialize (Hm s H).
  destruct (m s) as [[a|e] s']; [apply Hk|]; exact Hm.
Qed.

Lemma keeps_for_in {S X A} (I : S -> Prop) (xs : list X) (body : X -> M S (flow A)) :
  (forall x, keeps I (body x)) -> keeps I (for_in xs body).
Proof.
  intros Hbody. induction xs as [|x rest IH]; cbn [for_in].
  - apply keeps_ret.
  - apply keeps_bind; [apply Hbody|].
    intros [|a]; [exact IH|apply keeps_ret].
Qed.

(** ** compute_descriptors.py *)

Section ComputeDescriptorsFacts.

Import ComputeDescriptors.

Variable json_loads : string -> result json.
Variable str : json -> string.
Variable Mol : Type.
Variable MolFromSmiles : string -> option Mol.
Variable SanitizeMol : Mol -> result unit.
Variable Descriptors : string -> Mol -> result string.

Local Abbreviation process_smiles := (process_smiles str Mol MolFromSmiles SanitizeMol).
Local Abbreviation process_line :=
  (process_line json_loads str Mol MolFromSmiles SanitizeMol).
Local Abbreviation compute_descriptors :=
  (compute_descriptors json_loads str Mol MolFromSmiles SanitizeMol Descriptors).
Local Abbreviation used_features_fnc := (used_features_fnc Mol Descriptors).

Lemma keeps_write text : keeps nothing_reported (stream_write text).
Proof.
  intros s H. unfold stream_write, modify. cbn [snd].
  destruct (streams s); exact H.
Qed.

Lemma keeps_open_output : keeps nothing_reported open_output.
Proof. intros s H. exact H. Qed.

Lemma keeps_count_molecule : keeps nothing_reported count_molecule.
Proof. intros s H. exact H. Qed.

Lemma keeps_write_header use_fragments names :
  keeps nothing_reported (_write_header use_fragments names).
Proof.
  unfold _write_header.
  repeat (apply keeps_bind; [|intros ?]);
    try apply keeps_write.
  destruct use_fragments; [apply keeps_write|apply keeps_ret].
Qed.

(** The branch that reports an invalid molecule is never taken: a
    molecule that is [None] makes the call of [SanitizeMol] raise. *)
Lemma keeps_process_smiles use_fragments fncs index_list position smiles :
  keeps nothing_reported (process_smiles use_fragments fncs index_list position smiles).
Proof.
  unfold ComputeDescriptors.process_smiles.
  apply keeps_bind; [apply keeps_write|intros _].
  apply keeps_bind; [apply keeps_lift|intros text].
  apply keeps_bind; [apply keeps_write|intros _].
  apply keeps_bind; [apply keeps_write|intros _].
  apply keeps_bind.
  { destruct use_fragments; [|apply keeps_ret].
    apply keeps_bind; [apply keeps_lift|intros i].
    apply keeps_bind; [apply keeps_write|intros _]. apply keeps_write. }
  intros _. apply keeps_bind; [apply keeps_count_molecule|intros _].
  cbv zeta. destruct (MolFromSmiles text) as [mol|]; cbn [call_SanitizeMol].
  - apply keeps_bind; [apply keeps_lift|intros _].
    apply keeps_bind; [apply keeps_lift|intros values].
    apply keeps_bind; [apply keeps_write|intros _].
    apply keeps_bind; [apply keeps_write|intros _]. apply keeps_ret.
  - intros s H. unfold bind, lift. exact H.
Qed.

Lemma keeps_process_line use_fragments fncs line :
  keeps nothing_reported (process_line use_fragments fncs line).
Proof.
  unfold ComputeDescriptors.process_line.
  apply keeps_bind; [apply keeps_lift|intros molecule].
  apply keeps_bind; [apply keeps_lift|intros lists].
  apply keeps_bind; [|intros _; apply keeps_ret].
  apply keeps_for_in. intros entry. apply keeps_process_smiles.
Qed.


(** The loop over the input files. *)
Local Abbreviation files_loop use_fragments names fncs output_files input_files :=
  (for_in (A := unit) (enumerate input_files) (fun entry =>
     bind (if Nat.ltb (fst entry) output_files then open_output else raise IndexError)
       (fun _ =>
     bind (_write_header use_fragments names) (fun _ =>
     bind (for_in (snd entry) (process_line use_fragments fncs)) (fun _ =>
     ret Next))))).

Lemma keeps_files_loop use_fragments names fncs output_files input_files :
  keeps nothing_reported (files_loop use_fragments names fncs output_files input_files).
Proof.
  apply keeps_for_in. intros entry.
  apply keeps_bind.
  { destruct (Nat.ltb (fst entry) output_files);
      [apply keeps_open_output|apply keeps_raise]. }
  intros _. apply keeps_bind; [apply keeps_write_header|intros _].
  apply keeps_bind; [|intros _; apply keeps_ret].
  apply keeps_for_in. intros line. apply keeps_process_line.
Qed.

Lemma compute_descriptors_eq input_files output_files use_fragments features_to_use s :
  compute_descriptors input_files output_files use_fragments features_to_use s =
    let names := used_features_names features_to_use in
    match used_features_fnc names with
    | Raise e => (Raise e, s)
    | Return fncs =>
        match files_loop use_fragments names fncs output_files input_files s with
        | (Raise e, s') => (Raise e, s')
        | (Return _, s') =>
            (Return tt,
             State (streams s')
                   (logging s' ++ [InvalidMolecules (number_of_invalid s') (count_molecules s')])
                   (number_of_invalid s') (count_molecules s'))
        end
    end.
Proof.
  unfold ComputeDescriptors.compute_descriptors. cbv zeta.
  unfold bind at 1. unfold lift at 1.
  destruct (used_features_fnc _) as [fncs|e]; [|reflexivity].
  unfold bind at 1.
  destruct (for_in _ _ s) as [[f|e] s']; reflexivity.
Qed.

(** X1: whatever the input, [compute_descriptors] reports no molecule as
    invalid and counts none as invalid: a run that returns logs the
    summary with a count of zero, and a run that raises logs nothing. *)
Lemma no_molecule_reported input_files output_files use_fragments features_to_use :
  let run := compute_descriptors input_files output_files use_fragments features_to_use
               initial in
  number_of_invalid (snd run) = 0 /\
  logging (snd run) =
    match fst run with
    | Return _ => [InvalidMolecules 0 (count_molecules (snd run))]
    | Raise _ => []
    end.
Proof.
  cbv zeta. rewrite compute_descriptors_eq. cbv zeta.
  destruct (used_features_fnc _) as [fncs|e]; [|now split].
  pose proof (keeps_files_loop use_fragments
                (used_features_names features_to_use) fncs output_files
                input_files initial) as Hloop.
  specialize (Hloop (conj eq_refl eq_refl)).
  destruct (for_in _ _ initial) as [[f|e] s]; cbn [snd] in Hloop;
    destruct Hloop as [Hn Hl];
    cbn [fst snd logging number_of_invalid count_molecules];
    rewrite ?Hn, ?Hl; split; reflexivity.
Qed.

(** C8 fails on the code: a record whose SMILES gives no molecule is not
    logged, not counted and not skipped.  The call of [SanitizeMol] on the
    missing molecule raises before the validity check, the exception
    leaves [compute_descriptors], and neither the remaining records nor
    the summary follow.  Here the record is the first of the first file. *)
Theorem invalid_molecule_aborts line molecule smiles rest files
    output_files features_to_use fncs :
  json_loads line = Return molecule ->
  getitem molecule "smiles" = Return (JStr smiles) ->
  MolFromSmiles smiles = None ->
  used_features_fnc (used_features_names features_to_use)
    = Return fncs ->
  0 < output_files ->
  let run := compute_descriptors ((line :: rest) :: files) output_files false
               features_to_use initial in
  fst run = Raise ArgumentError /\
  logging (snd run) = [] /\
  number_of_invalid (snd run) = 0 /\
  count_molecules (snd run) = 1 /\
  streams (snd run) =
    [("smiles," ++ join "," (used_features_names features_to_use) ++ newline)
       ++ quote ++ smiles ++ quote ++ ","].
Proof.
  intros Hline Hsmiles Hmol Hfncs Hout run. subst run.
  unfold ComputeDescriptors.compute_descriptors. cbv zeta.
  rewrite Hfncs. unfold enumerate. cbn [enumerate_from for_in fst snd].
  destruct output_files as [|n]; [lia|]. cbn [Nat.ltb Nat.leb].
  unfold ComputeDescriptors.process_line, ComputeDescriptors.process_smiles,
    read_lists, _write_header, open_output, stream_write, count_molecule,
    bind, lift, ret, modify, initial.
  cbn [streams logging number_of_invalid count_molecules fst snd].
  rewrite Hline. cbn [fst snd]. rewrite Hsmiles.
  cbn [fst snd enumerate enumerate_from for_in as_str streams logging
       number_of_invalid count_molecules].
  unfold bind, lift, ret, modify.
  cbn [streams logging number_of_invalid count_molecules fst snd as_str].
  rewrite Hmol. cbn [call_SanitizeMol fst snd streams logging number_of_invalid
    count_molecules].
  repeat split.
  now rewrite !append_assoc.
Qed.

End ComputeDescriptorsFacts.

(** The failing input: a file whose first record holds a SMILES that does
    not parse, followed by one that does. *)
Lemma invalid_molecule_aborts_witness :
  ComputeDescriptors.loads_smiles "C1CC"
    = Return (JObj [("smiles", JStr "C1CC")]) /\
  ComputeDescriptors.parses "C1CC" = None /\
  let run := ComputeDescriptors.compute_descriptors
               ComputeDescriptors.loads_smiles ComputeDescriptors.example_str string
               ComputeDescriptors.parses ComputeDescriptors.example_sanitize
               ComputeDescriptors.example_descriptors
               [["C1CC"; "CCO"]] 3 false [] ComputeDescriptors.initial in
  fst run = Raise ArgumentError /\
  ComputeDescriptors.logging (snd run) = [] /\
  ComputeDescriptors.number_of_invalid (snd run) = 0.
Proof.
  split; [reflexivity|]. split; [reflexivity|].
  pose proof (invalid_molecule_aborts
                ComputeDescriptors.loads_smiles ComputeDescriptors.example_str string
                ComputeDescriptors.parses ComputeDescriptors.example_sanitize
                ComputeDescriptors.example_descriptors
                "C1CC" (JObj [("smiles", JStr "C1CC")]) "C1CC" ["CCO"] [] 3 []
                (ComputeDescriptors._FUNCTIONS string ComputeDescriptors.example_descriptors)
                eq_refl eq_refl eq_refl) as H.
  cbv zeta in H. destruct H as (H1 & H2 & H3 & _); [vm_compute; reflexivity|lia|].
  cbv zeta. now rewrite H1, H2, H3.
Defined.

(** ** add_activity.py: failures, and the script as a whole *)

Section AddActivityRuns.

Import AddActivity.

Variable json_loads : string -> result json.
Variable json_dumps : json -> string.

Local Abbreviation read_activity := (read_activity json_loads).
Local Abbreviation write_to_json := (write_to_json json_loads json_dumps).
Local Abbreviation write_to_json_any := (write_to_json_any json_loads json_dumps).
Local Abbreviation _main := (_main json_loads json_dumps).
Local Abbreviation records_from := (records_from json_loads).
Local Abbreviation line_record := (line_record json_loads).
Local Abbreviation outcome_from := (outcome_from json_loads).
Local Abbreviation well_formed := (well_formed json_loads).
Local Abbreviation text_from := (text_from json_dumps).

Local Abbreviation loop_body activity :=
  (fun entry : nat * string =>
     bind (lift (json_loads (snd entry))) (fun score =>
     bind (lift (getitem score "name")) (fun name =>
     bind (lift (getitem score "score")) (fun value =>
     bind (lift (list_getitem activity (fst entry))) (fun label =>
     bind (if negb (Nat.eqb (fst entry) 0) then output_stream_write newline else ret tt) (fun _ =>
     bind (output_stream_write (json_dumps (output_record name value label))) (fun _ =>
     ret (Next (A := unit))))))))).

Lemma loop_body_line_record activity num line written :
  loop_body activity (num, line) written =
    match line_record num line activity with
    | Return record => (Return Next, written ++ text_from num [record])
    | Raise e => (Raise e, written)
    end.
Proof.
  unfold AddActivity.line_record, bind, lift. cbn [fst snd].
  destruct (json_loads line) as [score|e]; [|reflexivity].
  destruct (getitem score "name") as [name|e]; [|reflexivity].
  destruct (getitem score "score") as [value|e]; [|reflexivity].
  destruct (list_getitem activity num) as [label|e]; [|reflexivity].
  cbn [AddActivity.text_from]. rewrite append_empty_r.
  destruct num as [|n]; cbn; [reflexivity|]. now rewrite append_assoc.
Qed.

Lemma records_from_line_record num line rest activity :
  records_from num (line :: rest) activity =
    match line_record num line activity with
    | Return record => record :: records_from (S num) rest activity
    | Raise _ => []
    end.
Proof.
  cbn [AddActivity.records_from]. unfold AddActivity.line_record.
  destruct (json_loads line) as [score|e]; [|reflexivity].
  destruct (getitem score "name"), (getitem score "score"),
    (list_getitem activity num); reflexivity.
Qed.

(** The loop, as a function of its inputs. *)
Lemma loop_outcome activity lines num written :
  for_in (enumerate_from num lines) (loop_body activity) written =
    (match outcome_from num lines activity with
     | Return _ => Return Next
     | Raise e => Raise e
     end,
     written ++ text_from num (records_from num lines activity)).
Proof.
  revert num written. induction lines as [|line rest IH]; intros num written.
  - cbn. now rewrite append_empty_r.
  - cbn [enumerate_from for_in AddActivity.outcome_from].
    rewrite records_from_line_record.
    pose proof (loop_body_line_record activity num line written) as Hbody.
    destruct (line_record num line activity) as [record|e].
    + erewrite bind_Return by exact Hbody. cbv beta iota. rewrite IH.
      cbn [AddActivity.text_from]. now rewrite append_empty_r, !append_assoc.
    + erewrite bind_Raise by exact Hbody. cbn. now rewrite append_empty_r.
Qed.

Lemma write_to_json_outcome input_score activity before :
  write_to_json input_score activity before =
    (outcome_from 0 input_score activity,
     join newline (map json_dumps (records_from 0 input_score activity))).
Proof.
  rewrite <- text_from_join.
  assert (write_to_json input_score activity before =
          match for_in (enumerate input_score) (loop_body activity) "" with
          | (Return _, s) => (Return tt, s)
          | (Raise e, s) => (Raise e, s)
          end) as -> by reflexivity.
  unfold enumerate. rewrite loop_outcome.
  destruct (outcome_from 0 input_score activity) as [[]|e]; reflexivity.
Qed.

(** Lines from number [num] on that all give a record. *)
Lemma good_lines num good tail activity :
  (forall i line, good !! i = Some line ->
     exists record, line_record (num + i) line activity = Return record) ->
  outcome_from num (good ++ tail)%list activity = outcome_from (num + length good) tail activity /\
  records_from num (good ++ tail)%list activity =
    (records_from num good activity
       ++ records_from (num + length good) tail activity)%list /\
  length (records_from num good activity) = length good.
Proof.
  revert num. induction good as [|line rest IH]; intros num Hgood.
  - cbn. rewrite Nat.add_0_r. now repeat split.
  - destruct (Hgood 0 line eq_refl) as [record Hrecord].
    rewrite Nat.add_0_r in Hrecord.
    destruct (IH (S num)) as (IH1 & IH2 & IH3).
    { intros i l Hl. replace (S num + i) with (num + S i) by lia.
      now apply Hgood. }
    replace (num + length (line :: rest)) with (S num + length rest)
      by (cbn [length]; lia).
    change ((line :: rest) ++ tail)%list with (line :: (rest ++ tail))%list.
    rewrite !records_from_line_record. cbn [AddActivity.outcome_from].
    rewrite Hrecord, IH1, IH2. cbn [length]. now rewrite IH3.
Qed.

(** X2: [write_to_json] stops at the first line of the score file whose
    record cannot be built: it raises the exception of that line, and the
    output file holds the records of the lines before it and nothing of
    the lines from it on. *)
Theorem write_to_json_first_failure good bad rest activity e before :
  (forall i line, good !! i = Some line ->
     exists record, line_record i line activity = Return record) ->
  line_record (length good) bad activity = Raise e ->
  write_to_json (good ++ bad :: rest)%list activity before =
    (Raise e, join newline (map json_dumps (records_from 0 good activity))) /\
  length (records_from 0 good activity) = length good.
Proof.
  intros Hgood Hbad. rewrite write_to_json_outcome.
  destruct (good_lines 0 good (bad :: rest) activity Hgood) as (H1 & H2 & H3).
  rewrite H1, H2. cbn [Nat.add AddActivity.outcome_from].
  rewrite records_from_line_record, Hbad, app_nil_r. now split.
Qed.

Lemma well_formed_line_record num line activity :
  well_formed line ->
  match activity !! num with
  | Some _ => exists record, line_record num line activity = Return record
  | None => line_record num line activity = Raise IndexError
  end.
Proof.
  intros (score & name & value & Hl & Hn & Hv).
  unfold AddActivity.line_record, list_getitem. rewrite Hl, Hn, Hv.
  destruct (activity !! num); eauto.
Qed.

(** X3: an activity list shorter than a score file of well-formed lines
    makes [write_to_json] raise [IndexError], after it has written one
    record for each element of the list. *)
Theorem write_to_json_short_activity input_score activity before :
  Forall well_formed input_score ->
  length activity < length input_score ->
  fst (write_to_json input_score activity before) = Raise IndexError /\
  snd (write_to_json input_score activity before) =
    join newline
      (map json_dumps (records_from 0 (take (length activity) input_score) activity)) /\
  length (records_from 0 (take (length activity) input_score) activity) = length activity.
Proof.
  intros Hwf Hshort.
  destruct (drop (length activity) input_score) as [|bad rest] eqn:Hdrop.
  { apply (f_equal length) in Hdrop. rewrite length_drop in Hdrop. cbn in Hdrop. lia. }
  assert (input_score = (take (length activity) input_score ++ bad :: rest)%list)
    as Hsplit
    by (rewrite <- Hdrop; symmetry; apply take_drop).
  set (good := take (length activity) input_score) in *.
  assert (length good = length activity) as Hlen
    by (subst good; rewrite length_take; lia).
  assert (forall line, line ∈ input_score -> well_formed line) as Hall
    by now apply Forall_forall.
  rewrite write_to_json_outcome. cbn [fst snd].
  assert (forall i line, good !! i = Some line ->
            exists record, line_record i line activity = Return record) as Hgood.
  { intros i line Hi.
    assert (i < length activity) as Hlt
      by (rewrite <- Hlen; now apply lookup_lt_Some in Hi).
    assert (well_formed line) as Hline.
    { apply Hall. rewrite Hsplit. apply elem_of_app. left.
      now apply list_elem_of_lookup_2 in Hi. }
    pose proof (well_formed_line_record i line activity Hline) as H.
    destruct (lookup_lt_is_Some_2 activity i Hlt) as [x Hx]. now rewrite Hx in H. }
  destruct (good_lines 0 good (bad :: rest) activity Hgood) as (H1 & H2 & H3).
  assert (line_record (length good) bad activity = Raise IndexError) as Hbad.
  { assert (well_formed bad) as Hline.
    { apply Hall. rewrite Hsplit. apply elem_of_app. right. left. }
    pose proof (well_formed_line_record (length good) bad activity Hline) as H.
    rewrite Hlen in *. now rewrite (lookup_ge_None_2 activity (length activity)) in H by lia. }
  rewrite Hsplit at 1 2. rewrite H1, H2. cbn [Nat.add AddActivity.outcome_from].
  rewrite records_from_line_record, Hbad, app_nil_r.
  repeat split. congruence.
Qed.

Lemma line_record_surplus num line activity surplus :
  num < length activity ->
  line_record num line (activity ++ surplus)%list = line_record num line activity.
Proof.
  intros Hlt. unfold AddActivity.line_record, list_getitem.
  now rewrite lookup_app_l.
Qed.

Lemma lines_surplus lines num activity surplus :
  num + length lines <= length activity ->
  outcome_from num lines (activity ++ surplus)%list = outcome_from num lines activity /\
  records_from num lines (activity ++ surplus)%list = records_from num lines activity.
Proof.
  revert num. induction lines as [|line rest IH]; intros num Hle; [now split|].
  cbn [length] in Hle. rewrite !records_from_line_record.
  cbn [AddActivity.outcome_from].
  rewrite line_record_surplus by lia.
  destruct (IH (S num)) as [-> ->]; [lia|]. now split.
Qed.

(** X4: what [write_to_json] returns and writes depends neither on what the
    output file held before nor on the elements of the activity list
    beyond the number of lines of the score file. *)
Theorem write_to_json_ignores_surplus input_score activity surplus before before' :
  length input_score <= length activity ->
  write_to_json input_score (activity ++ surplus)%list before'
    = write_to_json input_score activity before.
Proof.
  intros Hle. rewrite !write_to_json_outcome.
  now destruct (lines_surplus input_score 0 activity surplus Hle) as [-> ->].
Qed.

Lemma read_activity_eq first others :
  read_activity (first :: others) tt =
    (match json_loads first with
     | Return a => getitem a "activity"
     | Raise e => Raise e
     end, tt).
Proof.
  unfold AddActivity.read_activity. cbn [for_in]. unfold bind, lift, ret.
  destruct (json_loads first) as [a|e]; [|reflexivity].
  now destruct (getitem a "activity").
Qed.

(** X5: the script as a whole, when the first line of the activity file
    holds a list under "activity": the output file is emptied and then
    receives, one per line, the records of the lines of the score file up
    to the first whose record cannot be built, whose exception ends the
    script; the other lines of the activity file play no part. *)
Theorem main_zips first others score_file a items before :
  json_loads first = Return a ->
  getitem a "activity" = Return (JArr items) ->
  _main (first :: others) score_file before =
    (outcome_from 0 score_file items,
     join newline (map json_dumps (records_from 0 score_file items))).
Proof.
  intros Hl Ha. unfold AddActivity._main.
  rewrite read_activity_eq, Hl, Ha.
  change (write_to_json_any score_file (JArr items) before)
    with (write_to_json score_file items before).
  apply write_to_json_outcome.
Qed.

(** X6: with an empty activity file [read_activity] returns [None], and
    the script fails on the first line of the score file: a well-formed
    line raises [TypeError] at [activity[0]], after the output file has
    been emptied. *)
Theorem main_empty_activity_file line rest before :
  well_formed line ->
  _main [] (line :: rest) before = (Raise TypeError, "").
Proof.
  intros (score & name & value & Hl & Hn & Hv).
  unfold AddActivity._main, AddActivity.read_activity,
    AddActivity.write_to_json_any, enumerate.
  cbn [for_in enumerate_from]. unfold bind, lift, ret, modify. cbn [fst snd].
  now rewrite Hl, Hn, Hv.
Qed.

(** X7: the activity file is read before the output file is opened: when
    its first line does not parse, or holds no "activity", the script
    raises that exception and the output file is left as it was. *)
Theorem main_unreadable_activity first others score_file e before :
  match json_loads first with
  | Return a => getitem a "activity"
  | Raise e' => Raise e'
  end = Raise e ->
  _main (first :: others) score_file before = (Raise e, before).
Proof.
  intros H. unfold AddActivity._main. now rewrite read_activity_eq, H.
Qed.

End AddActivityRuns.

Section AddActivityExamples.

Import AddActivity.

Local Abbreviation loads := example_loads.
Local Abbreviation dumps := example_dumps.

Lemma example_well_formed line :
  line <> "" -> line <> "labels" -> well_formed loads line.
Proof.
  intros H1 H2. exists (JObj [("name", JStr line); ("score", JInt 1)]), (JStr line), (JInt 1).
  unfold example_loads.
  apply String.eqb_neq in H1, H2. rewrite H1, H2. now repeat split.
Defined.

Lemma write_to_json_first_failure_witness :
  line_record loads 2 "" [JInt 1; JInt 0; JInt 1] = Raise ValueError /\
  write_to_json loads dumps ["m1"; "m2"; ""; "m4"] [JInt 1; JInt 0; JInt 1] "old"
    = (Raise ValueError, "m1 active" ++ newline ++ "m2 inactive").
Proof.
  split; [reflexivity|].
  refine (proj1 (write_to_json_first_failure loads dumps ["m1"; "m2"] "" ["m4"]
                   [JInt 1; JInt 0; JInt 1] ValueError "old" _ eq_refl)).
  intros [|[|i]] line [= <-]; eexists; reflexivity.
Defined.

Lemma write_to_json_short_activity_witness :
  Forall (well_formed loads) ["m1"; "m2"; "m3"] /\
  write_to_json loads dumps ["m1"; "m2"; "m3"] [JInt 1; JInt 0] "old"
    = (Raise IndexError, "m1 active" ++ newline ++ "m2 inactive").
Proof.
  assert (Forall (well_formed loads) ["m1"; "m2"; "m3"]) as Hwf
    by (repeat constructor; apply example_well_formed; discriminate).
  split; [exact Hwf|].
  destruct (write_to_json_short_activity loads dumps ["m1"; "m2"; "m3"]
              [JInt 1; JInt 0] "old" Hwf) as (H1 & H2 & _); [cbn; lia|].
  rewrite (surjective_pairing (write_to_json _ _ _ _ _)), H1, H2. reflexivity.
Defined.

Lemma write_to_json_ignores_surplus_witness :
  write_to_json loads dumps ["m1"; "m2"] ([JInt 1; JInt 0] ++ [JInt 1; JInt 1]) ""
    = (Return tt, "m1 active" ++ newline ++ "m2 inactive").
Proof.
  rewrite (write_to_json_ignores_surplus loads dumps ["m1"; "m2"] [JInt 1; JInt 0]
             [JInt 1; JInt 1] "old" "") by (cbn; lia).
  reflexivity.
Defined.

Lemma main_zips_witness :
  _main loads dumps ["labels"; "not read"] ["m1"; "m2"] "old"
    = (Return tt, "m1 active" ++ newline ++ "m2 inactive").
Proof.
  rewrite (main_zips loads dumps "labels" ["not read"] ["m1"; "m2"]
             (JObj [("activity", JArr [JInt 1; JInt 0])]) [JInt 1; JInt 0] "old"
             eq_refl eq_refl).
  reflexivity.
Defined.

Lemma main_empty_activity_file_witness :
  _main loads dumps [] ["m1"; "m2"] "old" = (Raise TypeError, "").
Proof.
  apply main_empty_activity_file. apply example_well_formed; discriminate.
Defined.

Lemma main_unreadable_activity_witness :
  _main loads dumps ["m1"] ["m1"; "m2"] "old" = (Raise (KeyError "activity"), "old").
Proof. now apply main_unreadable_activity. Defined.

End AddActivityExamples.

(** ** compute_descriptors.py: the selection of features *)

Section FeatureSelection.

Import ComputeDescriptors.

Variable Mol : Type.
Variable Descriptors : string -> Mol -> result string.

Local Abbreviation _FUNCTIONS := (_FUNCTIONS Mol Descriptors).
Local Abbreviation used_features_fnc := (used_features_fnc Mol Descriptors).

Lemma _NAMES_NoDup : NoDup _NAMES.
Proof.
  assert (bool_decide (NoDup _NAMES) = true) as H by (vm_compute; reflexivity).
  now apply bool_decide_eq_true in H.
Qed.

Lemma index_Return name l i : index name l = Return i -> l !! i = Some name.
Proof.
  revert i. induction l as [|x rest IH]; intros i; cbn [index]; [discriminate|].
  destruct (String.eqb x name) eqn:E.
  - intros [= <-]. apply String.eqb_eq in E. now subst.
  - destruct (index name rest) as [j|e]; [|discriminate].
    intros [= <-]. cbn. now apply IH.
Qed.

Lemma index_elem name l : name ∈ l -> exists i, index name l = Return i.
Proof.
  induction l as [|x rest IH]; intros Hin; [now apply elem_of_nil in Hin|].
  cbn [index]. destruct (String.eqb x name) eqn:E; [eauto|].
  apply String.eqb_neq in E. apply elem_of_cons in Hin as [->|Hin]; [congruence|].
  destruct (IH Hin) as [i ->]. eauto.
Qed.

Lemma index_not_elem name l : name ∉ l -> index name l = Raise ValueError.
Proof.
  induction l as [|x rest IH]; intros Hin; [reflexivity|].
  cbn [index]. apply not_elem_of_cons in Hin as [Hne Hin].
  destruct (String.eqb x name) eqn:E.
  - apply String.eqb_eq in E. congruence.
  - now rewrite IH.
Qed.

(** The function selected for a name of the table is the descriptor of
    that name. *)
Lemma select_known name :
  name ∈ _NAMES ->
  match index name _NAMES with
  | Raise e => Raise e
  | Return i =>
      match _FUNCTIONS !! i with
      | Some fnc => Return fnc
      | None => Raise IndexError
      end
  end = Return (Descriptors name).
Proof.
  intros Hin. destruct (index_elem name _NAMES Hin) as [i Hi]. rewrite Hi.
  apply index_Return in Hi. unfold ComputeDescriptors._FUNCTIONS.
  now rewrite list_lookup_fmap, Hi.
Qed.

(** X8: every feature asked for by a name of [_NAMES] is computed by the
    RDKit function of that name, in the order asked for: the two tables
    of the script are aligned and no name occurs twice. *)
Theorem used_features_fnc_known names :
  Forall (fun name => name ∈ _NAMES) names ->
  used_features_fnc names = Return (map Descriptors names).
Proof.
  unfold ComputeDescriptors.used_features_fnc.
  induction names as [|name rest IH]; intros Hall; [reflexivity|].
  apply Forall_cons in Hall as [Hin Hall]. cbn [comprehension map].
  rewrite (select_known name Hin). now rewrite (IH Hall).
Qed.

(** The first name that is not in the table makes the selection raise. *)
Lemma used_features_fnc_unknown known name rest :
  Forall (fun n => n ∈ _NAMES) known -> name ∉ _NAMES ->
  used_features_fnc (known ++ name :: rest)%list = Raise ValueError.
Proof.
  intros Hknown Hname. unfold ComputeDescriptors.used_features_fnc.
  induction known as [|k known IH]; cbn [app comprehension].
  - now rewrite index_not_elem.
  - apply Forall_cons in Hknown as [Hin Hknown].
    rewrite (select_known k Hin). now rewrite (IH Hknown).
Qed.

Lemma split_at_unknown (names : list string) :
  ~ Forall (fun n => n ∈ _NAMES) names ->
  exists known name rest,
    names = (known ++ name :: rest)%list /\
    Forall (fun n => n ∈ _NAMES) known /\ name ∉ _NAMES.
Proof.
  induction names as [|n names IH]; intros Hnot.
  - exfalso. apply Hnot. constructor.
  - destruct (decide (n ∈ _NAMES)) as [Hin|Hout].
    + destruct IH as (known & name & rest & -> & Hk & Hn).
      { intros Hall. apply Hnot. now constructor. }
      exists (n :: known), name, rest. repeat split; [now constructor|exact Hn].
    + exists [], n, names. repeat split; [constructor|exact Hout].
Qed.

End FeatureSelection.

(** ** compute_descriptors.py: whole runs *)

Section ComputeDescriptorsRuns.

Import ComputeDescriptors.

Variable json_loads : string -> result json.
Variable str : json -> string.
Variable Mol : Type.
Variable MolFromSmiles : string -> option Mol.
Variable SanitizeMol : Mol -> result unit.
Variable Descriptors : string -> Mol -> result string.

Local Abbreviation process_smiles := (process_smiles str Mol MolFromSmiles SanitizeMol).
Local Abbreviation process_line :=
  (process_line json_loads str Mol MolFromSmiles SanitizeMol).
Local Abbreviation compute_descriptors :=
  (compute_descriptors json_loads str Mol MolFromSmiles SanitizeMol Descriptors).
Local Abbreviation used_features_fnc := (used_features_fnc Mol Descriptors).
Local Abbreviation row := (row str Mol MolFromSmiles SanitizeMol).
Local Abbreviation line_rows := (line_rows json_loads str Mol MolFromSmiles SanitizeMol).

Implicit Types (closed : list string) (logged : list record).

(** X9: a feature that is not a name of [_NAMES] makes
    [compute_descriptors] raise [ValueError] before it opens a file or
    logs anything. *)
Theorem compute_descriptors_unknown_feature input_files output_files use_fragments
    features_to_use s :
  ~ Forall (fun name => name ∈ _NAMES) features_to_use ->
  compute_descriptors input_files output_files use_fragments features_to_use s
    = (Raise ValueError, s).
Proof.
  intros Hnot.
  destruct (split_at_unknown features_to_use Hnot)
    as (known & name & rest & Hsplit & Hknown & Hname).
  rewrite compute_descriptors_eq. cbv zeta.
  assert (used_features_names features_to_use = features_to_use) as ->.
  { rewrite Hsplit. now destruct known. }
  rewrite Hsplit.
  now rewrite (used_features_fnc_unknown Mol Descriptors known name rest Hknown Hname).
Qed.

(** *** Runs in which every row can be built *)

Lemma stream_write_open text cur closed logged n c :
  stream_write text (State (cur :: closed) logged n c)
    = (Return tt, State ((cur ++ text) :: closed) logged n c).
Proof. reflexivity. Qed.

Lemma process_smiles_row use_fragments fncs index_list position smiles r
    cur closed logged n c :
  row use_fragments fncs index_list position smiles = Return r ->
  process_smiles use_fragments fncs index_list position smiles
      (State (cur :: closed) logged n c)
    = (Return Next, State ((cur ++ r) :: closed) logged n (S c)).
Proof.
  unfold ComputeDescriptors.row, ComputeDescriptors.process_smiles, and_then.
  destruct (as_str smiles) as [text|e] eqn:Htext; [|discriminate].
  intros Hrow.
  erewrite bind_Return by apply stream_write_open.
  unfold bind at 1. unfold lift at 1.
  erewrite bind_Return by apply stream_write_open.
  erewrite bind_Return by apply stream_write_open.
  destruct use_fragments.
  - destruct (list_getitem index_list position) as [i|e] eqn:Hi; [|discriminate].
    unfold bind at 1. unfold bind at 1. unfold lift at 1.
    erewrite bind_Return by apply stream_write_open.
    rewrite stream_write_open.
    unfold bind at 1. unfold count_molecule, modify. cbv zeta.
    destruct (MolFromSmiles text) as [mol|]; cbn [call_SanitizeMol] in *;
      [|discriminate].
    unfold bind at 1. unfold lift at 1.
    destruct (SanitizeMol mol) as [[]|e]; [|discriminate].
    unfold bind at 1. unfold lift at 1.
    destruct (comprehension (fun fnc => fnc mol) fncs) as [values|e]; [|discriminate].
    injection Hrow as <-.
    erewrite bind_Return by apply stream_write_open.
    erewrite bind_Return by apply stream_write_open.
    unfold ret. cbn [streams logging number_of_invalid count_molecules].
    now rewrite !append_assoc.
  - unfold bind at 1. unfold ret at 1.
    unfold bind at 1. unfold count_molecule, modify. cbv zeta.
    destruct (MolFromSmiles text) as [mol|]; cbn [call_SanitizeMol] in *;
      [|discriminate].
    unfold bind at 1. unfold lift at 1.
    destruct (SanitizeMol mol) as [[]|e]; [|discriminate].
    unfold bind at 1. unfold lift at 1.
    destruct (comprehension (fun fnc => fnc mol) fncs) as [values|e]; [|discriminate].
    injection Hrow as <-.
    erewrite bind_Return by apply stream_write_open.
    erewrite bind_Return by apply stream_write_open.
    unfold ret. cbn [streams logging number_of_invalid count_molecules].
    now rewrite !append_assoc.
Qed.

Lemma text_of_app (a b : list string) : text_of (a ++ b) = text_of a ++ text_of b.
Proof.
  induction a as [|x a IH]; [reflexivity|].
  cbn [app text_of fold_right]. fold (text_of (a ++ b)). fold (text_of a).
  now rewrite IH, append_assoc.
Qed.

Lemma smiles_loop_rows use_fragments fncs index_list entries rows
    cur closed logged n c :
  comprehension (fun entry => row use_fragments fncs index_list (fst entry) (snd entry))
                entries = Return rows ->
  for_in entries
         (fun entry => process_smiles use_fragments fncs index_list (fst entry) (snd entry))
         (State (cur :: closed) logged n c)
    = (Return Next,
       State ((cur ++ text_of rows) :: closed) logged n (c + length rows)).
Proof.
  revert rows cur c. induction entries as [|entry rest IH]; intros rows cur c.
  - intros [= <-]. cbn. now rewrite append_empty_r, Nat.add_0_r.
  - cbn [comprehension for_in].
    destruct (row use_fragments fncs index_list (fst entry) (snd entry)) as [r|e] eqn:Hr;
      [|discriminate].
    destruct (comprehension _ rest) as [rs|e] eqn:Hrs; [|discriminate].
    intros [= <-].
    erewrite bind_Return by (apply process_smiles_row; exact Hr).
    cbv beta iota. rewrite (IH rs) by reflexivity.
    cbn [text_of fold_right length]. fold (text_of rs).
    rewrite append_assoc.
    replace (c + S (length rs)) with (S c + length rs) by lia. reflexivity.
Qed.

Lemma process_line_rows use_fragments fncs line rows cur closed logged n c :
  line_rows use_fragments fncs line = Return rows ->
  process_line use_fragments fncs line (State (cur :: closed) logged n c)
    = (Return Next,
       State ((cur ++ text_of rows) :: closed) logged n (c + length rows)).
Proof.
  unfold ComputeDescriptors.line_rows, ComputeDescriptors.process_line, and_then.
  destruct (json_loads line) as [molecule|e]; [|discriminate].
  unfold bind at 1. unfold lift at 1.
  destruct (read_lists use_fragments molecule) as [lists|e]; [|discriminate].
  intros Hrows. unfold bind at 1. unfold lift at 1.
  rewrite (bind_Return _ _ _ _ _
             (smiles_loop_rows use_fragments fncs (snd lists) (enumerate (fst lists))
                rows cur closed logged n c Hrows)).
  reflexivity.
Qed.

Lemma lines_loop_rows use_fragments fncs lines rowss cur closed logged n c :
  comprehension (line_rows use_fragments fncs) lines = Return rowss ->
  for_in lines (process_line use_fragments fncs) (State (cur :: closed) logged n c)
    = (Return Next,
       State ((cur ++ text_of (concat rowss)) :: closed) logged n
             (c + length (concat rowss))).
Proof.
  revert rowss cur c. induction lines as [|line rest IH]; intros rowss cur c.
  - intros [= <-]. cbn. now rewrite append_empty_r, Nat.add_0_r.
  - cbn [comprehension for_in].
    destruct (line_rows use_fragments fncs line) as [rows|e] eqn:Hrows; [|discriminate].
    destruct (comprehension _ rest) as [rs|e] eqn:Hrs; [|discriminate].
    intros [= <-].
    erewrite bind_Return by (apply process_line_rows; exact Hrows).
    cbv beta iota. rewrite (IH rs) by reflexivity.
    cbn [concat]. rewrite text_of_app, length_app, append_assoc.
    replace (c + (length rows + length (concat rs)))
      with (c + length rows + length (concat rs)) by lia.
    reflexivity.
Qed.

(** The number of rows of the files. *)
Local Abbreviation total rowsss := (length (concat (concat rowsss))).

Lemma write_header_open use_fragments names closed logged n c :
  _write_header use_fragments names (State ("" :: closed) logged n c)
    = (Return tt, State (header use_fragments names :: closed) logged n c).
Proof.
  unfold _write_header, header.
  erewrite bind_Return by apply stream_write_open.
  destruct use_fragments.
  - erewrite bind_Return by apply stream_write_open.
    erewrite bind_Return by apply stream_write_open.
    rewrite stream_write_open. now rewrite !append_assoc.
  - unfold bind at 1. unfold ret at 1.
    erewrite bind_Return by apply stream_write_open.
    rewrite stream_write_open. now rewrite !append_assoc.
Qed.

Local Abbreviation file_body use_fragments names fncs output_files :=
  (fun entry : nat * list string =>
     bind (if Nat.ltb (fst entry) output_files then open_output else raise IndexError)
       (fun _ =>
     bind (_write_header use_fragments names) (fun _ =>
     bind (for_in (snd entry) (process_line use_fragments fncs)) (fun _ =>
     ret (Next (A := unit)))))).

Lemma file_body_rows use_fragments names fncs output_files k file rowss
    closed logged n c :
  k < output_files ->
  comprehension (line_rows use_fragments fncs) file = Return rowss ->
  file_body use_fragments names fncs output_files (k, file) (State closed logged n c)
    = (Return Next,
       State (file_text use_fragments names rowss :: closed) logged n
             (c + length (concat rowss))).
Proof.
  intros Hk Hfile. cbn [fst snd]. apply Nat.ltb_lt in Hk. rewrite Hk.
  unfold bind at 1. unfold open_output, modify.
  cbn [streams logging number_of_invalid count_molecules].
  erewrite bind_Return by apply write_header_open.
  erewrite bind_Return by (apply lines_loop_rows; exact Hfile).
  reflexivity.
Qed.

Lemma file_body_no_output use_fragments names fncs output_files k file s :
  output_files <= k ->
  file_body use_fragments names fncs output_files (k, file) s = (Raise IndexError, s).
Proof.
  intros Hk. cbn [fst snd]. apply Nat.ltb_ge in Hk. now rewrite Hk.
Qed.

(** The loop over the files, from file number [k] on, when every row can
    be built: it writes the files for which there is an output path. *)
Lemma files_loop_rows use_fragments names fncs output_files files rowsss
    k closed logged n c :
  comprehension (comprehension (line_rows use_fragments fncs)) files = Return rowsss ->
  let written := take (output_files - k) rowsss in
  for_in (enumerate_from k files) (file_body use_fragments names fncs output_files)
         (State closed logged n c)
    = (if decide (length files <= output_files - k) then Return Next
       else Raise IndexError,
       State (rev (map (file_text use_fragments names) written) ++ closed)
             logged n (c + total written)).
Proof.
  revert rowsss k closed c. induction files as [|file rest IH];
    intros rowsss k closed c.
  - intros [= <-]. cbn [enumerate_from for_in length]. unfold ret.
    rewrite take_nil. cbn. now rewrite Nat.add_0_r.
  - cbn [comprehension].
    destruct (comprehension (line_rows use_fragments fncs) file) as [rowss|e] eqn:Hfile;
      [|discriminate].
    destruct (comprehension _ rest) as [rs|e] eqn:Hrest; [|discriminate].
    intros [= <-]. cbv zeta. cbn [enumerate_from for_in length].
    destruct (decide (k < output_files)) as [Hk|Hk].
    + erewrite bind_Return by (apply file_body_rows; [exact Hk|exact Hfile]).
      cbv beta iota.
      specialize (IH rs (S k) (file_text use_fragments names rowss :: closed)
                     (c + length (concat rowss)) eq_refl).
      cbv zeta in IH. rewrite IH.
      replace (output_files - k) with (S (output_files - S k)) by lia.
      cbn [take map rev concat]. rewrite concat_app, length_app, <- app_assoc.
      cbn [app].
      f_equal.
      * destruct (decide (length rest <= output_files - S k)),
          (decide (S (length rest) <= S (output_files - S k))); try reflexivity; lia.
      * f_equal. lia.
    + erewrite bind_Raise by (apply file_body_no_output; lia).
      replace (output_files - k) with 0 by lia. cbn [take map rev concat app length].
      rewrite Nat.add_0_r.
      destruct (decide (S (length rest) <= 0)); [lia|reflexivity].
Qed.

Lemma for_in_app_Next {S X A} (xs ys : list X) (body : X -> M S (flow A)) s s' :
  for_in xs body s = (Return Next, s') ->
  for_in (xs ++ ys)%list body s = for_in ys body s'.
Proof.
  revert s. induction xs as [|x xs IH]; intros s; cbn [app for_in].
  - unfold ret. now intros [= <-].
  - unfold bind. destruct (body x s) as [[[|a]|e] s1].
    + apply IH.
    + discriminate.
    + discriminate.
Qed.

Lemma enumerate_from_app {X} (xs ys : list X) k :
  enumerate_from k (xs ++ ys)%list
    = (enumerate_from k xs ++ enumerate_from (k + length xs) ys)%list.
Proof.
  revert k. induction xs as [|x xs IH]; intros k; cbn [app enumerate_from length].
  - now rewrite Nat.add_0_r.
  - rewrite IH. now replace (S k + length xs) with (k + S (length xs)) by lia.
Qed.

(** A run on input files whose rows can all be built, with as many output
    paths as it needs. *)
Lemma compute_descriptors_rows input_files output_files use_fragments features_to_use
    fncs rowsss :
  used_features_fnc (used_features_names features_to_use) = Return fncs ->
  comprehension (comprehension (line_rows use_fragments fncs)) input_files
    = Return rowsss ->
  length input_files <= output_files ->
  compute_descriptors input_files output_files use_fragments features_to_use initial =
    (Return tt,
     State (rev (map (file_text use_fragments (used_features_names features_to_use))
                     rowsss))
           [InvalidMolecules 0 (total rowsss)] 0 (total rowsss)).
Proof.
  intros Hfncs Hrows Hle. rewrite compute_descriptors_eq. cbv zeta. rewrite Hfncs.
  pose proof (files_loop_rows use_fragments (used_features_names features_to_use) fncs
                output_files input_files rowsss 0 [] [] 0 0 Hrows) as Hloop.
  cbv zeta in Hloop. unfold enumerate, initial. rewrite Hloop.
  rewrite Nat.sub_0_r, decide_True by lia.
  assert (length rowsss = length input_files) as Hlen.
  { clear -Hrows. revert rowsss Hrows.
    induction input_files as [|f fs IH]; intros rowsss; cbn [comprehension].
    - now intros [= <-].
    - destruct (comprehension _ f); [|discriminate].
      destruct (comprehension _ fs) as [rs|]; [|discriminate].
      intros [= <-]. cbn [length]. now rewrite (IH rs). }
  rewrite take_ge by lia. rewrite app_nil_r. reflexivity.
Qed.


(** X11: with fewer output paths than input files, [compute_descriptors]
    writes the files it has a path for and then raises [IndexError], so the
    remaining input files are not read and no summary is logged. *)
Theorem compute_descriptors_too_few_outputs input_files output_files use_fragments
    features_to_use fncs rowsss :
  used_features_fnc (used_features_names features_to_use) = Return fncs ->
  comprehension (comprehension (line_rows use_fragments fncs))
                (take output_files input_files) = Return rowsss ->
  output_files < length input_files ->
  compute_descriptors input_files output_files use_fragments features_to_use initial =
    (Raise IndexError,
     State (rev (map (file_text use_fragments (used_features_names features_to_use))
                     rowsss))
           [] 0 (total rowsss)).
Proof.
  intros Hfncs Hrows Hlt. rewrite compute_descriptors_eq. cbv zeta. rewrite Hfncs.
  set (names := used_features_names features_to_use).
  pose proof (files_loop_rows use_fragments names fncs output_files
                (take output_files input_files) rowsss 0 [] [] 0 0 Hrows) as Hloop.
  cbv zeta in Hloop. rewrite Nat.sub_0_r, length_take in Hloop.
  rewrite decide_True in Hloop by lia.
  assert (length rowsss = output_files) as Hlen.
  { assert (forall (fs : list (list string)) rs,
              comprehension (comprehension (line_rows use_fragments fncs)) fs = Return rs ->
              length rs = length fs) as Hsame.
    { induction fs as [|f fs IH]; intros rs; cbn [comprehension].
      - now intros [= <-].
      - destruct (comprehension _ f); [|discriminate].
        destruct (comprehension _ fs) as [rs'|]; [|discriminate].
        intros [= <-]. cbn [length]. now rewrite (IH rs'). }
    rewrite (Hsame _ _ Hrows), length_take. lia. }
  rewrite (take_ge rowsss), app_nil_r in Hloop by lia.
  destruct (drop output_files input_files) as [|file rest] eqn:Hdrop.
  { apply (f_equal length) in Hdrop. rewrite length_drop in Hdrop. cbn in Hdrop. lia. }
  unfold enumerate, initial. rewrite <- (take_drop output_files input_files), Hdrop.
  rewrite enumerate_from_app, (for_in_app_Next _ _ _ _ _ Hloop).
  cbn [enumerate_from for_in].
  erewrite bind_Raise; [reflexivity|].
  apply (file_body_no_output use_fragments names fncs). rewrite length_take. lia.
Qed.

Lemma line_rows_molecule fncs line rows :
  line_rows false fncs line = Return rows -> length rows = 1.
Proof.
  unfold ComputeDescriptors.line_rows, and_then, read_lists.
  destruct (json_loads line) as [molecule|e]; [|discriminate].
  destruct (getitem molecule "smiles") as [smiles|e]; [|discriminate].
  cbn [fst snd enumerate enumerate_from comprehension].
  destruct (row false fncs [] 0 smiles); [|discriminate]. now intros [= <-].
Qed.

Lemma lines_rows_molecule fncs lines rowss :
  comprehension (line_rows false fncs) lines = Return rowss ->
  length (concat rowss) = length lines.
Proof.
  revert rowss. induction lines as [|line rest IH]; intros rowss; cbn [comprehension].
  - now intros [= <-].
  - destruct (line_rows false fncs line) as [rows|e] eqn:Hrows; [|discriminate].
    destruct (comprehension _ rest) as [rs|]; [|discriminate].
    intros [= <-]. cbn [concat length]. rewrite length_app, (IH rs) by reflexivity.
    now rewrite (line_rows_molecule fncs line rows Hrows).
Qed.

Lemma files_rows_molecule fncs files rowsss :
  comprehension (comprehension (line_rows false fncs)) files = Return rowsss ->
  total rowsss = length (concat files).
Proof.
  revert rowsss. induction files as [|file rest IH]; intros rowsss; cbn [comprehension].
  - now intros [= <-].
  - destruct (comprehension (line_rows false fncs) file) as [rowss|e] eqn:Hfile;
      [|discriminate].
    destruct (comprehension _ rest) as [rs|]; [|discriminate].
    intros [= <-]. cbn [concat]. rewrite concat_app, !length_app, (IH rs) by reflexivity.
    now rewrite (lines_rows_molecule fncs file rowss Hfile).
Qed.

(** X12: without [--fragments] a run that builds every row counts one
    molecule for each line of the input files: the summary it logs is
    "0 invalid of as many molecules as there are lines". *)
Theorem compute_descriptors_counts_lines input_files output_files features_to_use
    fncs rowsss :
  used_features_fnc (used_features_names features_to_use) = Return fncs ->
  comprehension (comprehension (line_rows false fncs)) input_files = Return rowsss ->
  length input_files <= output_files ->
  let run := compute_descriptors input_files output_files false features_to_use initial in
  fst run = Return tt /\
  count_molecules (snd run) = length (concat input_files) /\
  logging (snd run) = [InvalidMolecules 0 (length (concat input_files))].
Proof.
  intros Hfncs Hrows Hle run. subst run.
  rewrite (compute_descriptors_rows _ _ _ _ _ _ Hfncs Hrows Hle). cbn [fst snd
    count_molecules logging].
  now rewrite (files_rows_molecule fncs input_files rowsss Hrows).
Qed.

End ComputeDescriptorsRuns.

(** ** Example runs of compute_descriptors.py *)

Section ComputeDescriptorsExamples.

Import ComputeDescriptors.

Local Abbreviation example_run :=
  (compute_descriptors loads_smiles example_str string parses example_sanitize
                       example_descriptors).

Local Abbreviation example_row smiles :=
  (quote ++ smiles ++ quote ++ ",0,0" ++ newline).

Lemma compute_descriptors_unknown_feature_witness :
  ~ Forall (fun name => name ∈ _NAMES) ["MolWt"; "Weight"] /\
  example_run [["CCO"]] 1 false ["MolWt"; "Weight"] initial = (Raise ValueError, initial).
Proof.
  assert (~ Forall (fun name => name ∈ _NAMES) ["MolWt"; "Weight"]) as Hnot.
  { intros Hall. apply Forall_cons in Hall as [_ Hall]. apply Forall_cons in Hall as [Hin _].
    destruct (index_elem "Weight" _NAMES Hin) as [i Hi]. vm_compute in Hi. discriminate. }
  split; [exact Hnot|].
  exact (compute_descriptors_unknown_feature loads_smiles example_str string parses
           example_sanitize example_descriptors [["CCO"]] 1 false ["MolWt"; "Weight"]
           initial Hnot).
Defined.


Lemma compute_descriptors_too_few_outputs_witness :
  example_run [["CCO"; "C"]; ["CC"]] 1 false ["MolWt"; "fr_urea"] initial =
    (Raise IndexError,
     State ["smiles,MolWt,fr_urea" ++ newline
              ++ quote ++ "CCO" ++ quote ++ ",0,0" ++ newline
              ++ quote ++ "C" ++ quote ++ ",0,0" ++ newline]
           [] 0 2).
Proof.
  apply (compute_descriptors_too_few_outputs loads_smiles example_str string parses
           example_sanitize example_descriptors
           [["CCO"; "C"]; ["CC"]] 1 false ["MolWt"; "fr_urea"]
           (map example_descriptors ["MolWt"; "fr_urea"])
           [[[example_row "CCO"]; [example_row "C"]]]).
  - vm_compute. reflexivity.
  - vm_compute. reflexivity.
  - cbn. lia.
Defined.

Lemma compute_descriptors_counts_lines_witness :
  let run := example_run [["CCO"; "C"]; ["CC"]] 2 false ["MolWt"] initial in
  fst run = Return tt /\
  count_molecules (snd run) = 3 /\
  logging (snd run) = [InvalidMolecules 0 3].
Proof.
  apply (compute_descriptors_counts_lines loads_smiles example_str string parses
           example_sanitize example_descriptors
           [["CCO"; "C"]; ["CC"]] 2 ["MolWt"]
           (map example_descriptors ["MolWt"])
           [[[quote ++ "CCO" ++ quote ++ ",0" ++ newline];
             [quote ++ "C" ++ quote ++ ",0" ++ newline]];
            [[quote ++ "CC" ++ quote ++ ",0" ++ newline]]]).
  - vm_compute. reflexivity.
  - vm_compute. reflexivity.
  - cbn. lia.
Defined.

End ComputeDescriptorsExamples.

(** ** compute_descriptors.py: the command line *)

Section ConfigurationFacts.

Import ComputeDescriptors.

Lemma split_cons sep s : exists part parts, split sep s = part :: parts.
Proof.
  induction s as [|c rest IH]; cbn [split]; [eauto|].
  destruct (Ascii.eqb c sep); [eauto|].
  destruct IH as (part & parts & ->). eauto.
Qed.

Lemma split_length sep s : length (split sep s) = S (occurrences sep s).
Proof.
  induction s as [|c rest IH]; cbn [split occurrences]; [reflexivity|].
  destruct (Ascii.eqb c sep); cbn [length Nat.add]; [now rewrite IH|].
  destruct (split_cons sep rest) as (part & parts & E). rewrite E in IH |- *.
  exact IH.
Qed.

Lemma join_cons_cons sep x y rest :
  join sep (x :: y :: rest) = x ++ sep ++ join sep (y :: rest).
Proof. reflexivity. Qed.

Lemma join_String sep c part parts :
  join sep (String c part :: parts) = String c (join sep (part :: parts)).
Proof. destruct parts; reflexivity. Qed.

Lemma join_split sep s : join (String sep "") (split sep s) = s.
Proof.
  induction s as [|c rest IH]; cbn [split]; [reflexivity|].
  destruct (Ascii.eqb c sep) eqn:E.
  - apply Ascii.eqb_eq in E. subst c.
    destruct (split_cons sep rest) as (part & parts & Hs). rewrite Hs in IH |- *.
    rewrite join_cons_cons, IH. reflexivity.
  - destruct (split_cons sep rest) as (part & parts & Hs). rewrite Hs in IH |- *.
    now rewrite join_String, IH.
Qed.

Lemma split_three s :
  occurrences comma s = 2 ->
  exists a b c, split comma s = [a; b; c] /\ s = a ++ "," ++ b ++ "," ++ c.
Proof.
  intros Hocc. pose proof (split_length comma s) as Hlen. rewrite Hocc in Hlen.
  pose proof (join_split comma s) as Hjoin.
  destruct (split comma s) as [|a [|b [|c [|d rest]]]]; try discriminate.
  exists a, b, c. split; [reflexivity|]. now rewrite <- Hjoin.
Qed.

Lemma length_eqb_three s :
  Nat.eqb (length (split comma s)) 3 = bool_decide (occurrences comma s = 2).
Proof.
  rewrite split_length. destruct (decide (occurrences comma s = 2)) as [E|E].
  - now rewrite E, bool_decide_eq_true_2.
  - rewrite bool_decide_eq_false_2 by exact E. apply Nat.eqb_neq. lia.
Qed.

(** X13: [_read_configuration] returns a configuration when the values of
    [-i] and of [-o] each hold exactly two commas.  The configuration then
    lists three input and three output paths, which joined by commas are
    the values given, carries the [--fragments] flag, and nothing is
    logged. *)
Theorem read_configuration_accepts args :
  occurrences comma (input args) = 2 ->
  occurrences comma (output args) = 2 ->
  exists i1 i2 i3 o1 o2 o3,
    _read_configuration args
      = ([], Returns (Configuration [i1; i2; i3] [o1; o2; o3] (fragments args))) /\
    input args = i1 ++ "," ++ i2 ++ "," ++ i3 /\
    output args = o1 ++ "," ++ o2 ++ "," ++ o3.
Proof.
  intros Hi Ho.
  destruct (split_three _ Hi) as (i1 & i2 & i3 & Hsi & Hji).
  destruct (split_three _ Ho) as (o1 & o2 & o3 & Hso & Hjo).
  exists i1, i2, i3, o1, o2, o3. split; [|now split].
  unfold _read_configuration. now rewrite Hsi, Hso.
Qed.

(** X14: with a number of commas other than two in the value of [-i] or of
    [-o], [_read_configuration] logs one message and exits with status 1.
    The input is checked first: when both values are wrong the message is
    the one about the input files. *)
Theorem read_configuration_rejects args :
  occurrences comma (input args) <> 2 \/ occurrences comma (output args) <> 2 ->
  _read_configuration args =
    ([if bool_decide (occurrences comma (input args) = 2)
      then "Wrong number of output files"
      else "Wrong number of input files"], Exits 1).
Proof.
  intros Hwrong. unfold _read_configuration. cbv zeta.
  rewrite !length_eqb_three.
  destruct (decide (occurrences comma (input args) = 2)) as [Hi|Hi].
  - rewrite (bool_decide_eq_true_2 _ Hi). cbn [negb].
    destruct Hwrong as [Hw|Hw]; [contradiction|].
    now rewrite (bool_decide_eq_false_2 _ Hw).
  - now rewrite (bool_decide_eq_false_2 _ Hi).
Qed.

End ConfigurationFacts.

(** ** compute_descriptors.py: the script *)

Section MainFacts.

Import ComputeDescriptors.

Variable json_loads : string -> result json.
Variable str : json -> string.
Variable Mol : Type.
Variable MolFromSmiles : string -> option Mol.
Variable SanitizeMol : Mol -> result unit.
Variable Descriptors : string -> Mol -> result string.
Variable read_file : string -> list string.

Local Abbreviation _main :=
  (_main json_loads str Mol MolFromSmiles SanitizeMol Descriptors read_file).
Local Abbreviation line_rows := (line_rows json_loads str Mol MolFromSmiles SanitizeMol).
Local Abbreviation _FUNCTIONS := (_FUNCTIONS Mol Descriptors).



(** X16: with a number of commas other than two in the value of [-i] or of
    [-o], [_main] exits with status 1 after one message;
    [compute_descriptors] is not reached, so no file is opened or
    written. *)
Theorem main_rejects_arguments args :
  occurrences comma (input args) <> 2 \/ occurrences comma (output args) <> 2 ->
  _main args =
    ([if bool_decide (occurrences comma (input args) = 2)
      then "Wrong number of output files"
      else "Wrong number of input files"], Exits 1).
Proof.
  intros Hwrong. unfold ComputeDescriptors._main, _read_configuration. cbv zeta.
  rewrite !length_eqb_three.
  destruct (decide (occurrences comma (input args) = 2)) as [Hi|Hi].
  - rewrite (bool_decide_eq_true_2 _ Hi). cbn [negb].
    destruct Hwrong as [Hw|Hw]; [contradiction|].
    now rewrite (bool_decide_eq_false_2 _ Hw).
  - now rewrite (bool_decide_eq_false_2 _ Hi).
Qed.

End MainFacts.

Section ConfigurationExamples.

Import ComputeDescriptors.

Local Abbreviation example_args :=
  (Namespace "two.json,b.json,c.json" "a.csv,b.csv,c.csv" false).

Local Abbreviation example_main :=
  (_main loads_smiles example_str string parses example_sanitize example_descriptors
         example_files).

Lemma read_configuration_accepts_witness :
  exists i1 i2 i3 o1 o2 o3,
    _read_configuration example_args
      = ([], Returns (Configuration [i1; i2; i3] [o1; o2; o3] false)) /\
    "two.json,b.json,c.json" = i1 ++ "," ++ i2 ++ "," ++ i3 /\
    "a.csv,b.csv,c.csv" = o1 ++ "," ++ o2 ++ "," ++ o3.
Proof.
  apply (read_configuration_accepts example_args); reflexivity.
Defined.

Lemma read_configuration_rejects_witness :
  _read_configuration (Namespace "a.json,b.json" "a.csv" true)
    = (["Wrong number of input files"], Exits 1).
Proof.
  apply (read_configuration_rejects (Namespace "a.json,b.json" "a.csv" true)).
  left. vm_compute. discriminate.
Defined.


Lemma main_rejects_arguments_witness :
  _main loads_smiles example_str string parses example_sanitize example_descriptors
        example_files (Namespace "a.json,b.json,c.json" "a.csv,b.csv,c.csv,d.csv" false)
    = (["Wrong number of output files"], Exits 1).
Proof.
  apply (main_rejects_arguments loads_smiles example_str string parses example_sanitize
           example_descriptors example_files
           (Namespace "a.json,b.json,c.json" "a.csv,b.csv,c.csv,d.csv" false)).
  right. vm_compute. discriminate.
Defined.

End ConfigurationExamples.

(** ** model_factory.py: the order of registrations, and a second discovery *)

Section RegistryOrder.

Import ModelFactory.

Context {World Model : Type}.
Variable model_identifier : string -> string.
Variable model_constructor : string -> constructor World Model.

Local Abbreviation process := (process World Model).
Local Abbreviation imports := (imports model_identifier model_constructor).
Local Abbreviation _discover_models := (_discover_models model_identifier model_constructor).
Local Abbreviation create_model := (create_model model_identifier model_constructor).
Local Abbreviation run := (run model_identifier model_constructor).

Implicit Types (p : process) (name module : string) (c : constructor World Model).
Implicit Types (entries : list (string * constructor World Model)).

(** The calls [register(name, constructor)] for a list of entries. *)
Local Abbreviation registrations entries :=
  (map (fun entry => Register (fst entry) (snd entry)) entries).

Lemma run_registrations entries p :
  run (registrations entries) p =
    Process (foldl (fun d entry => <[fst entry := snd entry]> d) (_required_models p) entries)
            (sys_modules p) (world p) (log p).
Proof.
  revert p. induction entries as [|[name c] rest IH]; intros p; cbn [map foldl].
  - now destruct p.
  - unfold ModelFactory.run in *. cbn [fold_left]. rewrite IH. reflexivity.
Qed.

Lemma foldl_insert_permutation entries entries' (d : gmap string (constructor World Model)) :
  NoDup (fst <$> entries) ->
  entries ≡ₚ entries' ->
  foldl (fun d entry => <[fst entry := snd entry]> d) d entries
    = foldl (fun d entry => <[fst entry := snd entry]> d) d entries'.
Proof.
  intros Hdistinct Hperm. revert d Hdistinct.
  induction Hperm as [|x l l' Hperm IH|x y l|l l' l'' H1 IH1 H2 IH2]; intros d Hdistinct.
  - reflexivity.
  - cbn [foldl]. apply IH. rewrite fmap_cons in Hdistinct.
    now apply NoDup_cons in Hdistinct as [_ ?].
  - cbn [foldl]. f_equal. apply insert_insert_ne.
    rewrite !fmap_cons in Hdistinct. apply NoDup_cons in Hdistinct as [Hy _].
    intros E. apply Hy. rewrite E. apply elem_of_cons. now left.
  - rewrite IH1 by exact Hdistinct. apply IH2. now rewrite <- H1.
Qed.

(** X17: the order of registrations under distinct names is irrelevant:
    two clients that make the same [register] calls in different orders
    leave the same process, so every later [create] call behaves the same
    for both. *)
Theorem registration_order_irrelevant entries entries' p :
  NoDup (fst <$> entries) ->
  entries ≡ₚ entries' ->
  run (registrations entries) p = run (registrations entries') p.
Proof.
  intros Hdistinct Hperm. rewrite !run_registrations.
  now rewrite (foldl_insert_permutation entries entries' _ Hdistinct Hperm).
Qed.

Lemma imports_loaded modules p :
  Forall (fun module => module ∈ sys_modules p) modules ->
  imports modules p = (Return tt, p).
Proof.
  induction modules as [|module rest IH]; intros Hall; [reflexivity|].
  apply Forall_cons in Hall as [Hin Hall]. cbn [ModelFactory.imports].
  unfold bind. unfold ModelFactory.import, bind, gets.
  rewrite bool_decide_true by exact Hin. unfold ret at 1. now apply IH.
Qed.

(** X18: a model module that is already loaded is not executed again, so
    [_discover_models] in a process that has loaded all of them registers
    nothing.  Should the registry be emptied after the discovery, the next
    [create] call enters [_discover_models] again, finds the registry still
    empty and raises [KeyError], whatever the name. *)
Theorem rediscovery_registers_nothing p name :
  Forall (fun module => module ∈ sys_modules p) discovery_imports ->
  _discover_models p
    = (Return tt,
       Process (_required_models p) (sys_modules p) (world p) (log p ++ [Discover])%list) /\
  (_required_models p = ∅ ->
   create_model name p
     = (Raise (KeyError name),
        Process ∅ (sys_modules p) (world p) (log p ++ [Discover])%list)).
Proof.
  intros Hloaded.
  assert (_discover_models p
    = (Return tt,
       Process (_required_models p) (sys_modules p) (world p) (log p ++ [Discover])%list))
    as Hdiscover.
  { unfold ModelFactory._discover_models, emit, modify, bind.
    now rewrite imports_loaded. }
  split; [exact Hdiscover|].
  intros Hempty. unfold ModelFactory.create_model, bind, gets.
  rewrite Hempty. change (is_empty_dict ∅) with (bool_decide (dom (∅ : gmap string (constructor World Model)) = ∅)).
  rewrite bool_decide_true by apply dom_empty_L.
  rewrite <- Hempty at 1. rewrite Hdiscover. cbn [_required_models].
  rewrite Hempty, lookup_empty. reflexivity.
Qed.

End RegistryOrder.

Section RegistryOrderExamples.

Import ModelFactory.

Local Abbreviation identifier := table_identifier.
Local Abbreviation constructors := (fun _ : string => fresh_instance).

Lemma registration_order_irrelevant_witness :
  run identifier constructors
      (map (fun entry => Register (fst entry) (snd entry))
           [("mine", fresh_instance); ("other", failing_constructor)]) (start 0)
  = run identifier constructors
      (map (fun entry => Register (fst entry) (snd entry))
           [("other", failing_constructor); ("mine", fresh_instance)]) (start 0).
Proof.
  apply (registration_order_irrelevant identifier constructors
           [("mine", fresh_instance); ("other", failing_constructor)]
           [("other", failing_constructor); ("mine", fresh_instance)] (start 0)).
  - assert (bool_decide (NoDup ["mine"; "other"]) = true) as H
      by (vm_compute; reflexivity).
    now apply bool_decide_eq_true in H.
  - apply Permutation_swap.
Defined.

Lemma rediscovery_registers_nothing_witness :
  let p := Process (∅ : gmap string (constructor nat nat))
                   (list_to_set discovery_imports) 0 [Discover] in
  _discover_models identifier constructors p
    = (Return tt, Process ∅ (list_to_set discovery_imports) 0 [Discover; Discover]) /\
  create_model identifier constructors "baseline" p
    = (Raise (KeyError "baseline"),
       Process ∅ (list_to_set discovery_imports) 0 [Discover; Discover]).
Proof.
  cbv zeta.
  destruct (rediscovery_registers_nothing identifier constructors
              (Process (∅ : gmap string (constructor nat nat))
                       (list_to_set discovery_imports) 0 [Discover]) "baseline")
    as [Hdiscover Hcreate].
  - apply Forall_forall. intros module Hin. cbn [sys_modules].
    apply elem_of_list_to_set. exact Hin.
  - split; [exact Hdiscover|]. apply Hcreate. reflexivity.
Defined.

End RegistryOrderExamples.

Section FeatureSelectionExamples.

Import ComputeDescriptors.

Lemma used_features_fnc_known_witness :
  used_features_fnc string example_descriptors ["fr_urea"; "MolWt"]
    = Return [example_descriptors "fr_urea"; example_descriptors "MolWt"].
Proof.
  apply (used_features_fnc_known string example_descriptors ["fr_urea"; "MolWt"]).
  assert (bool_decide (Forall (fun name => name ∈ _NAMES) ["fr_urea"; "MolWt"]) = true)
    as H by (vm_compute; reflexivity).
  now apply bool_decide_eq_true in H.
Defined.

End FeatureSelectionExamples.
